(** * no-unused-classes: a shallow embedding of the lint rule and its properties

    Source: [src/rules/no-unused-classes/no-unused-classes.ts].

    Conventions of the embedding.
    - A JavaScript string is a sequence of code units; it is modelled as a
      [string] whose characters are the code units below 256.
    - A JavaScript [Set<string>] iterates in insertion order and holds no
      value twice: it is a list, [JSSet.add] appends a value that is absent.
    - The [Map] from source file path to aggregation record is a [gmap]; a
      record is only ever inserted under a key that is absent. A rule
      instance sees one file name, so the map holds at most one record and
      the order in which [forEach] visits the records plays no part.
    - The sets of a record are mutated in place through references the
      handlers take from the record; an [add] is modelled as an update of
      the record under its key.
    - An exception thrown by a collaborator (file read, stylesheet parse) is
      [None] in the option monad.
    - Node's [path] and [fs] modules and the css-tree parser are external;
      they are the fields of [Host]. *)

From Stdlib Require Import Ascii String ZArith DecimalString.
From stdpp Require Import base option list strings gmap.

Local Open Scope string_scope.
Set Warnings "-register-all".

(** ** ECMAScript regular expressions, as far as the rule uses them *)

Module RegExp.

Inductive t : Type :=
| Eps
| Char (c : ascii)
| Dot
| Seq (a b : t)
| Alt (a b : t)
| Plus (a : t)
| End.

(** [.] matches any character but a line terminator. Below 256 these are
    line feed and carriage return. *)
Definition isLineTerminator (c : ascii) : bool :=
  (nat_of_ascii c =? 10)%nat || (nat_of_ascii c =? 13)%nat.

(** Canonicalize of the [i] flag on an ASCII letter. A pattern character
    of the rule is always ASCII, and a code unit from 128 on never
    canonicalizes to one below 128, so the other code units are left as
    they are. *)
Definition canonicalize (c : ascii) : ascii :=
  let n := nat_of_ascii c in
  if ((97 <=? n) && (n <=? 122))%nat then ascii_of_nat (n - 32) else c.

Definition charMatches (ignoreCase : bool) (p x : ascii) : bool :=
  if ignoreCase
  then bool_decide (canonicalize p = canonicalize x)
  else bool_decide (p = x).

(** The rounds of a [+] over a matcher [ma] for its operand: one round,
    then either a further round or the continuation [k]. The fuel bounds
    the further rounds by the characters that are left. *)
Definition plusLoop (ma : string -> (string -> bool) -> bool)
    (k : string -> bool) : nat -> string -> bool :=
  fix loop (fuel : nat) (s : string) {struct fuel} : bool :=
    ma s (fun s' =>
            match fuel with
            | O => k s'
            | S fuel' => loop fuel' s' || k s'
            end).

(** Backtracking matcher in continuation-passing style: [m r s k] matches
    [r] at the front of [s] and hands the rest to [k]. *)
Fixpoint m (ignoreCase : bool) (r : t) (s : string) (k : string -> bool) : bool :=
  match r with
  | Eps => k s
  | Char p =>
      match s with
      | String x s' => charMatches ignoreCase p x && k s'
      | EmptyString => false
      end
  | Dot =>
      match s with
      | String x s' => negb (isLineTerminator x) && k s'
      | EmptyString => false
      end
  | Seq a b => m ignoreCase a s (fun s' => m ignoreCase b s' k)
  | Alt a b => m ignoreCase a s k || m ignoreCase b s k
  | Plus a => plusLoop (m ignoreCase a) k (String.length s) s
  | End =>
      match s with
      | EmptyString => k s
      | String _ _ => false
      end
  end.

(** [RegExp.prototype.test] without the [g] and [y] flags: the match is
    tried at every start index from 0 to the length of the input. *)
Fixpoint test (ignoreCase : bool) (r : t) (s : string) : bool :=
  m ignoreCase r s (fun _ => true)
  || match s with
     | String _ s' => test ignoreCase r s'
     | EmptyString => false
     end.

(** A run of pattern characters. *)
Fixpoint lit (p : string) : t :=
  match p with
  | EmptyString => Eps
  | String c p' => Seq (Char c) (lit p')
  end.

Fixpoint canonicalizeString (s : string) : string :=
  match s with
  | EmptyString => EmptyString
  | String c s' => String (canonicalize c) (canonicalizeString s')
  end.

End RegExp.

(** [/.+\.module\.(scss|css)$/i] *)
Definition cssFilePattern : RegExp.t :=
  RegExp.Seq (RegExp.Plus RegExp.Dot)
    (RegExp.Seq (RegExp.lit ".module.")
       (RegExp.Seq (RegExp.Alt (RegExp.lit "scss") (RegExp.lit "css"))
          RegExp.End)).

Definition isCssFile (importFilePath : string) : bool :=
  RegExp.test true cssFilePattern importFilePath.

(** ** JavaScript values, sets and strings *)

(** A value of type [unknown], as far as the shared settings are read. The
    property table of an object holds each key once. *)
Inductive JsValue : Type :=
| JUndefined
| JNull
| JBool (b : bool)
| JNum (n : Z)
| JStr (s : string)
| JObj (props : list (string * JsValue)).

(** [v ?? d] *)
Definition nullish (v d : JsValue) : JsValue :=
  match v with
  | JUndefined | JNull => d
  | _ => v
  end.

Fixpoint lookupProp (key : string) (props : list (string * JsValue)) : JsValue :=
  match props with
  | [] => JUndefined
  | (k, v) :: rest => if String.eqb k key then v else lookupProp key rest
  end.

(** [v[key]] for a [v] that is neither [null] nor [undefined] and a [key]
    that no prototype defines: a primitive has no such property. *)
Definition js_get (v : JsValue) (key : string) : JsValue :=
  match v with
  | JObj props => lookupProp key props
  | _ => JUndefined
  end.

Module JSSet.

Abbreviation t := (list string).

Definition empty : t := [].

Definition has (s : t) (x : string) : bool := bool_decide (x ∈ s).

Definition add (s : t) (x : string) : t :=
  if has s x then s else (s ++ [x])%list.

Definition size (s : t) : nat := length s.

(** [[...s.values()]] *)
Definition values (s : t) : list string := s.

(** [xs.forEach((x) => s.add(x))] *)
Definition addAll (s : t) (xs : list string) : t := foldl add s xs.

End JSSet.

(** [`'${className}'`] *)
Definition quote (className : string) : string :=
  "'" +:+ className +:+ "'".

(** [xs.join(sep)] *)
Definition join (sep : string) (xs : list string) : string :=
  String.concat sep xs.

(** [`${n}`] for an integer [n] *)
Definition numberToString (n : Z) : string :=
  NilZero.string_of_int (Z.to_int n).

(** [s.startsWith(p)] *)
Definition startsWith (s p : string) : bool := String.prefix p s.

(** ** Collaborators *)

(** The stylesheet tree of css-tree: a class selector carries its name and
    has no children; any other node has a type and children. *)
Inductive CssNode : Type :=
| ClassSelector (name : string)
| OtherNode (type : string) (children : list CssNode).

(** [cssTree.walk(ast, { visit: "ClassSelector", enter })]: the names of the
    class selectors in the order the walk enters them. *)
Fixpoint walkClassSelectors (node : CssNode) : list string :=
  match node with
  | ClassSelector name => [name]
  | OtherNode _ children =>
      (fix walkList (l : list CssNode) : list string :=
         match l with
         | [] => []
         | c :: l' => (walkClassSelectors c ++ walkList l')%list
         end) children
  end.

Record Host : Type := {
  path_dirname : string -> string;
  path_resolve : string -> string -> string;
  fs_existsSync : string -> bool;
  fs_readFileSync : string -> option string;
  cssTree_parse : string -> option CssNode
}.

(** ** Helpers of the rule *)

Definition resolvePhysicalCssFilePath (host : Host)
    (sourceFilePath importFilePath : string) (basePath : option string) : string :=
  let basePath := default "" basePath in
  if startsWith importFilePath "." then
    let dirname := path_dirname host sourceFilePath in
    path_resolve host dirname importFilePath
  else path_resolve host basePath importFilePath.

Definition fileExists (host : Host) (physicalFilePath : string) : bool :=
  fs_existsSync host physicalFilePath.

Definition parseCssAst (host : Host) (css : string) : option CssNode :=
  cssTree_parse host css.

Definition parseCssFileAst (host : Host) (physicalCssFilePath : string) : option CssNode :=
  contents ← fs_readFileSync host physicalCssFilePath;
  parseCssAst host contents.

Definition getCssFileClassNames (cssAst : CssNode) : JSSet.t :=
  JSSet.addAll JSSet.empty (walkClassSelectors cssAst).

Definition getBasePathSetting (settings : JsValue) : option string :=
  let pluginSettings := js_get (nullish settings (JObj [])) "@jespers/css-modules" in
  let basePath := js_get (nullish pluginSettings (JObj [])) "basePath" in
  match basePath with
  | JStr s => if String.eqb s "" then None else Some s
  | _ => None
  end.

(** The rule options as the schema and [RuleOptions] admit them. *)
Record MarkAsUsedOptions : Type := {
  markAsUsed : option (list string)
}.

Definition getMarkAsUsedOption (options : list MarkAsUsedOptions) : JSSet.t :=
  match options with
  | o :: _ =>
      match markAsUsed o with
      | Some names => JSSet.addAll JSSet.empty names
      | None => JSSet.empty
      end
  | [] => JSSet.empty
  end.

Definition getPrettyUnusedClassNames (unusedClassNames : list string) : string :=
  let base := join ", " (quote <$> take 3 unusedClassNames) in
  if (length unusedClassNames <=? 3)%nat then base
  else base +:+ "... (+"
         +:+ numberToString (Z.max 0 (Z.of_nat (length unusedClassNames) - 3))
         +:+ " more)".

Definition getFixPayloadClassNames (unusedClassNames : list string) : string :=
  join ", " (quote <$> unusedClassNames).

(** ** The rule *)

Record ImportDeclarationNode : Type := {
  source_value : string;
  range : nat * nat
}.

(** A member expression, with what [ASTUtils.getPropertyName] returns for
    it ([None] for [null]). *)
Record MemberExpressionNode : Type := {
  getPropertyName : option string
}.

Record Meta : Type := {
  importNode : ImportDeclarationNode;
  cssFilePath : string
}.

Record FileEntry : Type := {
  availableClassNames : JSSet.t;
  usedClassNames : JSSet.t;
  meta : option Meta
}.

Record RuleContext : Type := {
  getFilename : string;
  settings : JsValue;
  options : list MarkAsUsedOptions
}.

(** What the fixer of the host returns: text and the range it replaces. *)
Record RuleFix : Type := {
  fix_range : nat * nat;
  fix_text : string
}.

Definition insertTextBeforeRange (r : nat * nat) (text : string) : RuleFix :=
  {| fix_range := (r.1, r.1); fix_text := text |}.

(** The host applies a fix by replacing its range of the source text. *)
Definition applyFix (sourceText : string) (f : RuleFix) : string :=
  String.substring 0 (fix_range f).1 sourceText
  +:+ fix_text f
  +:+ String.substring (fix_range f).2
        (String.length sourceText - (fix_range f).2) sourceText.

Record Suggestion : Type := {
  suggestion_fix : RuleFix;
  suggestion_messageId : string;
  suggestion_classNames : string
}.

Record Report : Type := {
  report_node : ImportDeclarationNode;
  report_messageId : string;
  report_classNames : string;
  report_cssFilePath : string;
  report_suggest : list Suggestion
}.

Definition withAvailable (file : FileEntry) (s : JSSet.t) : FileEntry :=
  {| availableClassNames := s;
     usedClassNames := usedClassNames file;
     meta := meta file |}.

Definition withUsed (file : FileEntry) (s : JSSet.t) : FileEntry :=
  {| availableClassNames := availableClassNames file;
     usedClassNames := s;
     meta := meta file |}.

(** The set a handler adds to is the very object the record of the file
    refers to, whether the record was there before or has just been set:
    an [add] is an update of that record. The [meta] the handler computes is
    a local value; it reaches the map only through [files.set]. *)
Definition ImportDeclaration (host : Host) (context : RuleContext)
    (node : ImportDeclarationNode) (files : gmap string FileEntry)
    : option (gmap string FileEntry) :=
  let sourceFilePath := getFilename context in
  let importFilePath := source_value node in
  if isCssFile importFilePath then
    let basePath := getBasePathSetting (settings context) in
    let cssFilePath :=
      resolvePhysicalCssFilePath host sourceFilePath importFilePath basePath in
    if fileExists host cssFilePath then
      cssAst ← parseCssFileAst host cssFilePath;
      let classNames := getCssFileClassNames cssAst in
      if (0 <? JSSet.size classNames)%nat then
        let file := files !! sourceFilePath in
        let meta0 :=
          default {| importNode := node; cssFilePath := cssFilePath |}
                  (file ≫= meta) in
        let availableClassNames0 :=
          default JSSet.empty (availableClassNames <$> file) in
        let files1 :=
          match file with
          | None =>
              <[sourceFilePath :=
                  {| availableClassNames := availableClassNames0;
                     usedClassNames := JSSet.empty;
                     meta := Some meta0 |}]> files
          | Some _ => files
          end in
        Some (alter
                (fun f => withAvailable f
                   (JSSet.addAll (availableClassNames f) (JSSet.values classNames)))
                sourceFilePath files1)
      else Some files
    else Some files
  else Some files.

Definition MemberExpression (context : RuleContext)
    (node : MemberExpressionNode) (files : gmap string FileEntry)
    : gmap string FileEntry :=
  match getPropertyName node with
  | Some propertyName =>
      if String.eqb propertyName "" then files
      else
        let sourceFilePath := getFilename context in
        let usedClassNames0 :=
          default JSSet.empty (usedClassNames <$> files !! sourceFilePath) in
        let files1 :=
          match files !! sourceFilePath with
          | None =>
              <[sourceFilePath :=
                  {| availableClassNames := JSSet.empty;
                     usedClassNames := usedClassNames0;
                     meta := None |}]> files
          | Some _ => files
          end in
        alter (fun f => withUsed f (JSSet.add (usedClassNames f) propertyName))
              sourceFilePath files1
  | None => files
  end.

(** The array [unusedClassNames] of [Program:exit]. *)
Definition unusedClassNames (file : FileEntry) (markAsUsedClassNames : JSSet.t)
    : list string :=
  filter
    (fun className =>
       negb (JSSet.has (usedClassNames file) className)
       && negb (JSSet.has markAsUsedClassNames className))
    (JSSet.values (availableClassNames file)).

Definition directiveComment (fixPayloadClassNames : string) : string :=
  "/* eslint @jespers/css-modules/no-unused-classes: [2, { markAsUsed: ["
  +:+ fixPayloadClassNames +:+ "] }] */" +:+ String "010" "".

(** The body of the [files.forEach] of [Program:exit]: the report of one
    record, if it has one. *)
Definition reportFile (markAsUsedClassNames : JSSet.t) (file : FileEntry)
    : option Report :=
  let unused := unusedClassNames file markAsUsedClassNames in
  if (0 <? length unused)%nat then
    match meta file with
    | Some {| importNode := importNode0; cssFilePath := cssFilePath0 |} =>
        if String.eqb cssFilePath0 "" then None
        else
          let prettyClassNames := getPrettyUnusedClassNames unused in
          let fixPayloadClassNames := getFixPayloadClassNames unused in
          Some {| report_node := importNode0;
                  report_messageId := "unusedCssClasses";
                  report_classNames := prettyClassNames;
                  report_cssFilePath := cssFilePath0;
                  report_suggest :=
                    [ {| suggestion_fix :=
                           insertTextBeforeRange (range importNode0)
                             (directiveComment fixPayloadClassNames);
                         suggestion_messageId := "markAsUsed";
                         suggestion_classNames := fixPayloadClassNames |} ] |}
    | None => None
    end
  else None.

Definition Program_exit (context : RuleContext) (files : gmap string FileEntry)
    : list Report :=
  let markAsUsedClassNames :=
    if (0 <? size files)%nat then getMarkAsUsedOption (options context)
    else JSSet.empty in
  omap (fun kv => reportFile markAsUsedClassNames kv.2) (map_to_list files).

(** ** One pass over a source file *)

Inductive Event : Type :=
| VisitImportDeclaration (node : ImportDeclarationNode)
| VisitMemberExpression (node : MemberExpressionNode).

Definition visit (host : Host) (context : RuleContext) (e : Event)
    (files : gmap string FileEntry) : option (gmap string FileEntry) :=
  match e with
  | VisitImportDeclaration node => ImportDeclaration host context node files
  | VisitMemberExpression node => Some (MemberExpression context node files)
  end.

Fixpoint traverse (host : Host) (context : RuleContext) (events : list Event)
    (files : gmap string FileEntry) : option (gmap string FileEntry) :=
  match events with
  | [] => Some files
  | e :: rest =>
      files' ← visit host context e files;
      traverse host context rest files'
  end.

(** [create(context)] starts from an empty map; the host then calls the
    handlers in document order and [Program:exit] last. *)
Definition lint (host : Host) (context : RuleContext) (events : list Event)
    : option (list Report) :=
  files ← traverse host context events ∅;
  Some (Program_exit context files).

(** ** A small host, for running the rule on examples *)

Module Demo.

Definition rule (classes : list string) : CssNode :=
  OtherNode "Rule"
    [OtherNode "SelectorList"
       [OtherNode "Selector" (ClassSelector <$> classes)];
     OtherNode "Block" []].

Definition styleSheet (rules : list (list string)) : CssNode :=
  OtherNode "StyleSheet" (rule <$> rules).

(** The stylesheets on disk, each with the tree the parser gives for it;
    the contents of [/src/broken.module.css] do not parse. *)
Definition disk : list (string * (string * option CssNode)) :=
  [ ("/src/a.module.css", (".x{}", Some (styleSheet [["x"]])));
    ("/src/b.module.css", (".y{}", Some (styleSheet [["y"]])));
    ("/src/abc.module.css",
      (".a{} .b{} .c{}", Some (styleSheet [["a"]; ["b"]; ["c"]])));
    ("/src/five.module.css",
      (".a,.b{} .c,.d,.e{} .a{}",
       Some (styleSheet [["a"; "b"]; ["c"; "d"; "e"]; ["a"]])));
    ("/src/empty.module.css", ("p{}", Some (styleSheet [[]])));
    ("/src/broken.module.css", ("}{", None));
    ("/base/lib.module.scss", (".z{}", Some (styleSheet [["z"]]))) ].

Definition findFile (p : string) : option (string * option CssNode) :=
  snd <$> find (fun e => String.eqb e.1 p) disk.

Definition findContents (css : string) : option CssNode :=
  (find (fun e => String.eqb e.2.1 css) disk) ≫= (fun e => e.2.2).

(** [resolve] joins its two segments, and a specifier [./x] loses its
    marker, which is what Node does on these inputs. *)
Definition host : Host :=
  {| path_dirname := fun _ => "/src";
     path_resolve := fun from to =>
       from +:+ "/" +:+
       (if String.prefix "./" to
        then String.substring 2 (String.length to - 2) to else to);
     fs_existsSync := fun p => bool_decide (is_Some (findFile p));
     fs_readFileSync := fun p => fst <$> findFile p;
     cssTree_parse := findContents |}.

Definition context (marks : option (list string)) : RuleContext :=
  {| getFilename := "/src/App.tsx";
     settings := JObj [("@jespers/css-modules", JObj [("basePath", JStr "/base")])];
     options := [ {| markAsUsed := marks |} ] |}.

Definition importNodeOf (specifier : string) (start : nat)
    : ImportDeclarationNode :=
  {| source_value := specifier;
     range := (start, start + 20 + String.length specifier) |}.

Definition import (specifier : string) (start : nat) : Event :=
  VisitImportDeclaration (importNodeOf specifier start).

Definition access (name : string) : Event :=
  VisitMemberExpression {| getPropertyName := Some name |}.

(** The record of [/src/App.tsx] after a pass over one import of
    [./five.module.css], and the report [Program:exit] makes of it. *)
Definition fiveFiles : gmap string FileEntry :=
  {[ "/src/App.tsx" :=
       {| availableClassNames := ["a"; "b"; "c"; "d"; "e"];
          usedClassNames := [];
          meta := Some {| importNode := importNodeOf "./five.module.css" 0;
                          cssFilePath := "/src/five.module.css" |} |} ]}.

Definition fiveReport : Report :=
  {| report_node := importNodeOf "./five.module.css" 0;
     report_messageId := "unusedCssClasses";
     report_classNames := "'a', 'b', 'c'... (+2 more)";
     report_cssFilePath := "/src/five.module.css";
     report_suggest :=
       [ {| suggestion_fix :=
              {| fix_range := (0, 0);
                 fix_text := directiveComment "'a', 'b', 'c', 'd', 'e'" |};
            suggestion_messageId := "markAsUsed";
            suggestion_classNames := "'a', 'b', 'c', 'd', 'e'" |} ] |}.

(** A record made by a property access before any import, after a later
    import of a stylesheet with the class [x]. *)
Definition orphan : FileEntry :=
  {| availableClassNames := ["x"];
     usedClassNames := ["foo"];
     meta := None |}.

(** A host whose stylesheets all declare one class whose name holds a line
    feed, as an escape in a stylesheet can denote. *)
Definition lineFeedClass : string := "a" +:+ String "010" "b".

Definition lineFeedHost : Host :=
  {| path_dirname := path_dirname host;
     path_resolve := path_resolve host;
     fs_existsSync := fun _ => true;
     fs_readFileSync := fun _ => Some ".a\a b{}";
     cssTree_parse := fun _ => Some (styleSheet [[lineFeedClass]]) |}.

End Demo.

(** ** The specification's wording, for comparison with the code *)

(** The base path of section 4.2: the shared setting when it is present, a
    string and not empty, the empty string otherwise. *)
Definition spec_basePath (settings : JsValue) : string :=
  match settings with
  | JObj props =>
      match lookupProp "@jespers/css-modules" props with
      | JObj pluginProps =>
          match lookupProp "basePath" pluginProps with
          | JStr s => s
          | _ => ""
          end
      | _ => ""
      end
  | _ => ""
  end.

(** Path resolution as section 4.2 words it. *)
Definition spec_resolve (host : Host) (sourceFilePath importFilePath : string)
    (settings : JsValue) : string :=
  if startsWith importFilePath "."
  then path_resolve host (path_dirname host sourceFilePath) importFilePath
  else path_resolve host (spec_basePath settings) importFilePath.

(** The recognition test as section 4.3 words it: a case-insensitive match
    of the end of the specifier against one of the two suffixes. *)
Definition endsWithIgnoreCase (s suffix : string) : bool :=
  let n := String.length s in
  let k := String.length suffix in
  (k <=? n)%nat
  && String.eqb (RegExp.canonicalizeString (String.substring (n - k) k s))
                (RegExp.canonicalizeString suffix).

Definition spec_isCssFile (importFilePath : string) : bool :=
  endsWithIgnoreCase importFilePath ".module.css"
  || endsWithIgnoreCase importFilePath ".module.scss".

(** The suffix of the summary that counts the names left out. *)
Definition moreSuffix (K : Z) : string :=
  "... (+" +:+ numberToString K +:+ " more)".

Definition endsWith (s suffix : string) : Prop :=
  ∃ front, s = front +:+ suffix.

Fixpoint lastChar (s : string) : option ascii :=
  match s with
  | EmptyString => None
  | String c EmptyString => Some c
  | String _ s' => lastChar s'
  end.

(** Whether a text breaks into more than one line. *)
Fixpoint hasLineTerminator (s : string) : bool :=
  match s with
  | EmptyString => false
  | String c s' => RegExp.isLineTerminator c || hasLineTerminator s'
  end.

(** ** Views of the handlers used in the proofs *)

(** The physical path [ImportDeclaration] computes for a node. *)
Definition stylesheetPath (host : Host) (context : RuleContext)
    (node : ImportDeclarationNode) : string :=
  resolvePhysicalCssFilePath host (getFilename context) (source_value node)
    (getBasePathSetting (settings context)).

(** What an import contributes: [None] when reading or parsing throws, no
    name when the specifier is not a stylesheet module or the file does not
    exist, and the class names of the stylesheet otherwise. *)
Definition importedClassNames (host : Host) (context : RuleContext)
    (node : ImportDeclarationNode) : option (list string) :=
  if isCssFile (source_value node) then
    if fileExists host (stylesheetPath host context node) then
      getCssFileClassNames <$> parseCssFileAst host (stylesheetPath host context node)
    else Some []
  else Some [].

(** What an event adds to the record of the file: available names and
    used names; [None] when the handler throws. *)
Definition contribution (host : Host) (context : RuleContext) (e : Event)
    : option (list string * list string) :=
  match e with
  | VisitImportDeclaration node =>
      names ← importedClassNames host context node; Some (names, [])
  | VisitMemberExpression node =>
      Some ([], match getPropertyName node with
                | Some propertyName =>
                    if String.eqb propertyName "" then [] else [propertyName]
                | None => []
                end)
  end.

Definition availableAt (files : gmap string FileEntry) (key : string)
    : list string :=
  from_option availableClassNames [] (files !! key).

Definition usedAt (files : gmap string FileEntry) (key : string)
    : list string :=
  from_option usedClassNames [] (files !! key).

(** Two records with the same available and the same used names. *)
Definition sameSets (f1 f2 : FileEntry) : Prop :=
  availableClassNames f1 ≡ₚ availableClassNames f2
  ∧ usedClassNames f1 ≡ₚ usedClassNames f2.

Definition sameFiles (files1 files2 : gmap string FileEntry) : Prop :=
  ∀ key, option_Forall2 sameSets (files1 !! key) (files2 !! key).

Definition sameOutcome (r1 r2 : option (gmap string FileEntry)) : Prop :=
  option_Forall2 sameFiles r1 r2.

(** Every set of every record holds each name once. *)
Definition wellFormed (files : gmap string FileEntry) : Prop :=
  ∀ key file, files !! key = Some file →
    NoDup (availableClassNames file) ∧ NoDup (usedClassNames file).

(** An anchor that stems from one of the events [seen]: an import whose
    stylesheet yields class names, with the path resolved for it. *)
Definition anchoredAt (host : Host) (context : RuleContext)
    (seen : list Event) (m : Meta) : Prop :=
  ∃ node names,
    VisitImportDeclaration node ∈ seen
    ∧ importedClassNames host context node = Some names
    ∧ names ≠ []
    ∧ m = {| importNode := node;
             cssFilePath := stylesheetPath host context node |}.

(** * Properties *)

(** ** Strings *)

Lemma append_cons a s t : String a s +:+ t = String a (s +:+ t).
Proof. reflexivity. Qed.

Lemma append_nil_l t : "" +:+ t = t.
Proof. reflexivity. Qed.

Lemma append_nil_r s : s +:+ "" = s.
Proof. induction s as [|a s IH]; [done|]. by rewrite append_cons, IH. Qed.

Lemma append_assoc s t u : (s +:+ t) +:+ u = s +:+ t +:+ u.
Proof. induction s as [|a s IH]; [done|]. by rewrite !append_cons, IH. Qed.

Lemma length_append s t :
  String.length (s +:+ t) = String.length s + String.length t.
Proof. induction s as [|a s IH]; [done|]. rewrite append_cons. simpl. by rewrite IH. Qed.

(** ** Sets in insertion order *)

Section JSSetFacts.

Implicit Types (s xs : list string) (x y : string).

Lemma JSSet_has_true s x : JSSet.has s x = true ↔ x ∈ s.
Proof. unfold JSSet.has. apply bool_decide_eq_true. Qed.

Lemma JSSet_has_false s x : JSSet.has s x = false ↔ x ∉ s.
Proof. unfold JSSet.has. apply bool_decide_eq_false. Qed.

Lemma JSSet_elem_of_add s x y : y ∈ JSSet.add s x ↔ y ∈ s ∨ y = x.
Proof.
  unfold JSSet.add. destruct (JSSet.has s x) eqn:E.
  - apply JSSet_has_true in E. split; [by left | intros [?| ->]; done].
  - rewrite elem_of_app, list_elem_of_singleton. done.
Qed.

Lemma JSSet_NoDup_add s x : NoDup s → NoDup (JSSet.add s x).
Proof.
  intros Hs. unfold JSSet.add. destruct (JSSet.has s x) eqn:E; [done|].
  apply JSSet_has_false in E. apply NoDup_app. split_and!; [done| |apply NoDup_singleton].
  intros z Hz Hz'. apply list_elem_of_singleton in Hz'. by subst.
Qed.

Lemma JSSet_elem_of_addAll xs : ∀ s y, y ∈ JSSet.addAll s xs ↔ y ∈ s ∨ y ∈ xs.
Proof.
  unfold JSSet.addAll. induction xs as [|x xs IH]; intros s y; simpl.
  - rewrite elem_of_nil. tauto.
  - rewrite IH, JSSet_elem_of_add, elem_of_cons. tauto.
Qed.

Lemma JSSet_NoDup_addAll xs : ∀ s, NoDup s → NoDup (JSSet.addAll s xs).
Proof.
  unfold JSSet.addAll. induction xs as [|x xs IH]; intros s Hs; simpl; [done|].
  by apply IH, JSSet_NoDup_add.
Qed.

Lemma JSSet_addAll_nil s xs : JSSet.addAll s xs = [] ↔ s = [] ∧ xs = [].
Proof.
  split.
  - intros E. split.
    + destruct s as [|a s]; [done|]. exfalso.
      assert (a ∈ JSSet.addAll (a :: s) xs) as H
        by (apply JSSet_elem_of_addAll; left; apply list_elem_of_here).
      rewrite E in H. by apply elem_of_nil in H.
    + destruct xs as [|a xs]; [done|]. exfalso.
      assert (a ∈ JSSet.addAll s (a :: xs)) as H
        by (apply JSSet_elem_of_addAll; right; apply list_elem_of_here).
      rewrite E in H. by apply elem_of_nil in H.
  - by intros [-> ->].
Qed.

End JSSetFacts.

(** ** Resolution of the unused names *)

Lemma elem_of_unusedClassNames file mark c :
  c ∈ unusedClassNames file mark ↔
  c ∈ availableClassNames file ∧ (c ∉ usedClassNames file) ∧ (c ∉ mark).
Proof.
  unfold unusedClassNames, JSSet.values. rewrite list_elem_of_filter.
  rewrite andb_True, !negb_True, !Is_true_true, !JSSet_has_true. tauto.
Qed.

Lemma unusedClassNames_nil_available file mark :
  availableClassNames file = [] → unusedClassNames file mark = [].
Proof. unfold unusedClassNames, JSSet.values. by intros ->. Qed.

(** C2. At finalization the unused names of a record are the available
    names that are neither used nor marked as used, in the iteration order
    of the available names: a name is unused exactly when it is available,
    not used and not marked, and the unused list is a subsequence of the
    available one. *)
Theorem unused_is_available_minus_used_minus_marked
    (file : FileEntry) (markAsUsedClassNames : list string) :
  (∀ c, c ∈ unusedClassNames file markAsUsedClassNames ↔
        c ∈ availableClassNames file
        ∧ (c ∉ usedClassNames file)
        ∧ (c ∉ markAsUsedClassNames))
  ∧ sublist (unusedClassNames file markAsUsedClassNames)
            (JSSet.values (availableClassNames file))
  ∧ unusedClassNames file markAsUsedClassNames
    = filter (fun c => (c ∉ usedClassNames file) ∧ (c ∉ markAsUsedClassNames))
             (JSSet.values (availableClassNames file)).
Proof.
  split_and!.
  - intros c. apply elem_of_unusedClassNames.
  - unfold unusedClassNames. apply sublist_filter.
  - unfold unusedClassNames. apply list_filter_iff. intros c.
    rewrite andb_True, !negb_True, !Is_true_true, !JSSet_has_true. tauto.
Qed.

(** ** Finalization *)

Lemma reportFile_Some mark file r :
  reportFile mark file = Some r →
  unusedClassNames file mark ≠ []
  ∧ ∃ m, meta file = Some m ∧ cssFilePath m ≠ "" ∧ report_node r = importNode m
         ∧ report_cssFilePath r = cssFilePath m
         ∧ report_classNames r = getPrettyUnusedClassNames (unusedClassNames file mark)
         ∧ report_suggest r =
             [ {| suggestion_fix :=
                    insertTextBeforeRange (range (importNode m))
                      (directiveComment
                         (getFixPayloadClassNames (unusedClassNames file mark)));
                  suggestion_messageId := "markAsUsed";
                  suggestion_classNames :=
                    getFixPayloadClassNames (unusedClassNames file mark) |} ].
Proof.
  unfold reportFile. destruct (unusedClassNames file mark) as [|c l] eqn:Eu; simpl; [done|].
  destruct (meta file) as [[n p]|] eqn:Em; [|done].
  destruct (String.eqb p "") eqn:Ep; [done|].
  intros [= <-]. split; [done|]. eexists. split; [done|]. simpl.
  apply String.eqb_neq in Ep. done.
Qed.

Lemma elem_of_Program_exit context files r :
  r ∈ Program_exit context files →
  ∃ key file,
    files !! key = Some file
    ∧ reportFile (getMarkAsUsedOption (options context)) file = Some r.
Proof.
  unfold Program_exit. rewrite list_elem_of_omap.
  intros [[key file] [Hin Hr]]. apply elem_of_map_to_list in Hin.
  exists key, file. split; [done|]. simpl in Hr.
  destruct (0 <? size files)%nat eqn:Es; [done|].
  apply Nat.ltb_ge in Es. assert (size files = 0) as H0 by lia.
  apply map_size_empty_iff in H0. subst files. by rewrite lookup_empty in Hin.
Qed.

(** C8. A record reports nothing when its unused list is empty, when it
    has no anchor, or when it has no available class name; and every
    diagnostic of [Program:exit] stems from a record with an anchor and a
    non-empty unused list (so with available names). *)
Theorem no_report_without_unused_or_anchor
    (context : RuleContext) (files : gmap string FileEntry) :
  (∀ mark file,
      unusedClassNames file mark = [] ∨ meta file = None
      ∨ availableClassNames file = [] →
      reportFile mark file = None)
  ∧ (∀ r, r ∈ Program_exit context files →
          ∃ key file,
            files !! key = Some file
            ∧ unusedClassNames file (getMarkAsUsedOption (options context)) ≠ []
            ∧ is_Some (meta file)
            ∧ availableClassNames file ≠ [])
  ∧ ((∀ key file, files !! key = Some file →
        unusedClassNames file (getMarkAsUsedOption (options context)) = []
        ∨ meta file = None ∨ availableClassNames file = []) →
     Program_exit context files = []).
Proof.
  assert (∀ mark file,
      unusedClassNames file mark = [] ∨ meta file = None
      ∨ availableClassNames file = [] →
      reportFile mark file = None) as Hrec.
  { intros mark file H. destruct (reportFile mark file) as [r|] eqn:Er; [|done].
    apply reportFile_Some in Er as (Hu & m & Hm & _).
    destruct H as [H|[H|H]]; [done|congruence|].
    by apply (unusedClassNames_nil_available _ mark) in H. }
  split_and!; [done| |].
  - intros r Hr. apply elem_of_Program_exit in Hr as (key & file & Hf & Hr).
    exists key, file. apply reportFile_Some in Hr as (Hu & m & Hm & _).
    split_and!; [done|done|by eexists|].
    intros Ha. by apply (unusedClassNames_nil_available _ (getMarkAsUsedOption (options context))) in Ha.
  - intros Hall. destruct (Program_exit context files) as [|r l] eqn:E; [done|].
    assert (r ∈ Program_exit context files) as Hr by (rewrite E; apply list_elem_of_here).
    apply elem_of_Program_exit in Hr as (key & file & Hf & Hr).
    rewrite (Hrec _ _ (Hall _ _ Hf)) in Hr. done.
Qed.

(** ** Path resolution *)

Lemma getBasePathSetting_spec settings :
  default "" (getBasePathSetting settings) = spec_basePath settings.
Proof.
  unfold getBasePathSetting, spec_basePath.
  destruct settings as [| | | | |props]; simpl; try done.
  destruct (lookupProp "@jespers/css-modules" props) as [| | | | |pp]; simpl; try done.
  destruct (lookupProp "basePath" pp) as [| | | |s|]; simpl; try done.
  destruct (String.eqb s "") eqn:E; [|done].
  apply String.eqb_eq in E. by subst.
Qed.

(** C7. The physical path is the specifier resolved against the directory
    of the importing file when the specifier starts with a dot, and against
    the base path otherwise; the base path is the shared setting when that
    is a non-empty string and the empty string in every other case. *)
Theorem resolvePhysicalCssFilePath_follows_spec
    (host : Host) (sourceFilePath importFilePath : string) (settings : JsValue) :
  resolvePhysicalCssFilePath host sourceFilePath importFilePath
    (getBasePathSetting settings)
  = spec_resolve host sourceFilePath importFilePath settings
  ∧ resolvePhysicalCssFilePath host sourceFilePath importFilePath None
    = (if startsWith importFilePath "."
       then path_resolve host (path_dirname host sourceFilePath) importFilePath
       else path_resolve host "" importFilePath).
Proof.
  unfold resolvePhysicalCssFilePath, spec_resolve.
  rewrite getBasePathSetting_spec. done.
Qed.

(** ** The summary and the payload *)

Lemma lastChar_Some_nonempty s c : lastChar s = Some c → s ≠ "".
Proof. by destruct s. Qed.

Lemma lastChar_app s t : t ≠ "" → lastChar (s +:+ t) = lastChar t.
Proof.
  intros Ht. induction s as [|a s IH]; [done|].
  change (String a s +:+ t) with (String a (s +:+ t)).
  destruct (s +:+ t) as [|b u] eqn:E.
  - destruct s; simpl in E; [by subst|done].
  - by rewrite <- IH.
Qed.

Lemma lastChar_quote c : lastChar (quote c) = Some "'"%char.
Proof.
  unfold quote. rewrite lastChar_app by (by destruct c).
  by rewrite lastChar_app.
Qed.

Lemma lastChar_join sep c (l : list string) :
  l ≠ [] → (∀ x, x ∈ l → lastChar x = Some c) →
  lastChar (join sep l) = Some c.
Proof.
  unfold join. induction l as [|x l IH]; [done|]. intros _ Hall.
  destruct l as [|y l].
  - simpl. apply Hall, list_elem_of_here.
  - change (String.concat sep (x :: y :: l))
      with (x +:+ sep +:+ String.concat sep (y :: l)).
    assert (lastChar (String.concat sep (y :: l)) = Some c) as Hl.
    { apply IH; [done|]. intros z Hz. apply Hall. by apply list_elem_of_further. }
    rewrite !lastChar_app; try done; try by eapply lastChar_Some_nonempty.
    intros E. destruct sep; simpl in E; [|done].
    by apply lastChar_Some_nonempty in Hl.
Qed.

Lemma lastChar_moreSuffix K : lastChar (moreSuffix K) = Some ")"%char.
Proof.
  unfold moreSuffix.
  rewrite lastChar_app by (by destruct (numberToString K)).
  by rewrite lastChar_app.
Qed.

(** C3. For a non-empty list of unused names the summary is the first
    [min 3 n] names, each in single quotes, joined by comma and space,
    followed by the suffix [... (+K more)] with [K = n - 3] exactly when
    there are more than three names; without that the summary ends in a
    quote, so in no such suffix. *)
Theorem pretty_summary_truncation (unused : list string) :
  unused ≠ [] →
  let n := length unused in
  getPrettyUnusedClassNames unused
  = join ", " (quote <$> take (min 3 n) unused)
    +:+ (if (3 <? n)%nat then moreSuffix (Z.of_nat n - 3) else "")
  ∧ length (take (min 3 n) unused) = min 3 n
  ∧ ((∃ K, endsWith (getPrettyUnusedClassNames unused) (moreSuffix K))
     ↔ 3 < n)
  ∧ (3 < n →
     endsWith (getPrettyUnusedClassNames unused) (moreSuffix (Z.of_nat n - 3))).
Proof.
  intros Hne n.
  assert (getPrettyUnusedClassNames unused
          = join ", " (quote <$> take (min 3 n) unused)
            +:+ (if (3 <? n)%nat then moreSuffix (Z.of_nat n - 3) else "")) as Heq.
  { unfold getPrettyUnusedClassNames, moreSuffix. fold n.
    destruct (n <=? 3)%nat eqn:E1.
    - apply Nat.leb_le in E1.
      assert ((3 <? n)%nat = false) as -> by (apply Nat.ltb_ge; lia).
      rewrite (take_ge unused 3) by (fold n; lia).
      rewrite (take_ge unused (min 3 n)) by (fold n; lia).
      by rewrite append_nil_r.
    - apply Nat.leb_gt in E1.
      assert ((3 <? n)%nat = true) as -> by (apply Nat.ltb_lt; lia).
      replace (min 3 n) with 3 by lia.
      replace (Z.max 0 (Z.of_nat n - 3)) with (Z.of_nat n - 3)%Z by lia.
      done. }
  split_and!.
  - exact Heq.
  - rewrite length_take. fold n. lia.
  - split.
    + intros [K [front HK]]. destruct (3 <? n)%nat eqn:E; [by apply Nat.ltb_lt|].
      exfalso. rewrite Heq in HK. rewrite append_nil_r in HK.
      assert (lastChar (join ", " (quote <$> take (3 `min` n) unused)) = Some "'"%char) as Hq.
      { apply lastChar_join.
        - destruct unused; [done|]. simpl in n. by replace (min 3 n) with (S (min 2 (length unused))) by lia.
        - intros x Hx. apply list_elem_of_fmap in Hx as (y & -> & _). apply lastChar_quote. }
      rewrite HK, lastChar_app, lastChar_moreSuffix in Hq; [done|].
      eapply lastChar_Some_nonempty, lastChar_moreSuffix.
    + intros Hn. exists (Z.of_nat n - 3)%Z. rewrite Heq.
      assert ((3 <? n)%nat = true) as -> by (apply Nat.ltb_lt; lia). by eexists.
  - intros Hn. rewrite Heq.
    assert ((3 <? n)%nat = true) as -> by (apply Nat.ltb_lt; lia). by eexists.
Qed.

Lemma hasLineTerminator_app s t :
  hasLineTerminator (s +:+ t) = hasLineTerminator s || hasLineTerminator t.
Proof.
  induction s as [|a s IH]; [done|].
  rewrite append_cons. simpl. by rewrite IH, orb_assoc.
Qed.

Lemma hasLineTerminator_join sep (l : list string) :
  hasLineTerminator sep = false →
  (∀ x, x ∈ l → hasLineTerminator x = false) →
  hasLineTerminator (join sep l) = false.
Proof.
  intros Hsep. unfold join. induction l as [|x l IH]; intros Hall; [done|].
  destruct l as [|y l].
  - apply Hall, list_elem_of_here.
  - change (String.concat sep (x :: y :: l))
      with (x +:+ sep +:+ String.concat sep (y :: l)).
    rewrite !hasLineTerminator_app, Hsep, IH, (Hall x); [done|apply list_elem_of_here|].
    intros z Hz. apply Hall. by apply list_elem_of_further.
Qed.

Lemma hasLineTerminator_quote c :
  hasLineTerminator (quote c) = hasLineTerminator c.
Proof.
  unfold quote. rewrite !hasLineTerminator_app. simpl.
  by rewrite orb_false_r.
Qed.

Lemma substring_all s : String.substring 0 (String.length s) s = s.
Proof. induction s as [|a s IH]; [done|]. simpl. by rewrite IH. Qed.

Lemma substring_split (n : nat) : ∀ s,
  (n ≤ String.length s)%nat →
  s = String.substring 0 n s +:+ String.substring n (String.length s - n) s
  ∧ String.length (String.substring 0 n s) = n.
Proof.
  induction n as [|n IH]; intros s Hn.
  - rewrite Nat.sub_0_r, substring_all. by destruct s.
  - destruct s as [|a s]; simpl in Hn; [lia|].
    destruct (IH s) as [E L]; [lia|].
    simpl. rewrite append_cons, <- E, L. done.
Qed.

Lemma append_snoc_inj s t a : s +:+ String a "" = t +:+ String a "" → s = t.
Proof.
  revert t. induction s as [|b s IH]; intros [|c t] E.
  - done.
  - rewrite append_nil_l, append_cons in E. injection E as _ E. by destruct t.
  - rewrite append_nil_l, append_cons in E. injection E as _ E. by destruct s.
  - rewrite !append_cons in E. injection E as -> E. by rewrite (IH t E).
Qed.

Lemma hasLineTerminator_join_inv sep (l : list string) :
  hasLineTerminator (join sep l) = false →
  ∀ x, x ∈ l → hasLineTerminator x = false.
Proof.
  unfold join. induction l as [|x l IH]; intros H y Hy.
  - by apply elem_of_nil in Hy.
  - destruct l as [|z l].
    + apply list_elem_of_singleton in Hy as ->. exact H.
    + change (String.concat sep (x :: z :: l))
        with (x +:+ sep +:+ String.concat sep (z :: l)) in H.
      rewrite !hasLineTerminator_app in H.
      apply orb_false_iff in H as [Hx H]. apply orb_false_iff in H as [_ H].
      apply elem_of_cons in Hy as [->|Hy]; [done|]. by apply IH.
Qed.

(** C4. Every diagnostic of [Program:exit] carries exactly one suggestion.
    Its payload is every unused name of the record, in single quotes and
    joined by comma and space, whatever the summary shows. Its fix inserts
    the directive comment that turns the rule on as an error with that
    payload as its [markAsUsed] list, followed by a line feed, at the start
    of the range of the anchor import, and leaves the text before and after
    as it was. The inserted text is one line, ended by its line feed,
    exactly when no unused name holds a line terminator itself. *)
Theorem report_has_one_complete_fix
    (context : RuleContext) (files : gmap string FileEntry) (r : Report) :
  r ∈ Program_exit context files →
  ∃ key file m s,
    files !! key = Some file
    ∧ meta file = Some m
    ∧ report_node r = importNode m
    ∧ report_suggest r = [s]
    ∧ let unused :=
        unusedClassNames file (getMarkAsUsedOption (options context)) in
      let payload :=
        String.concat ", " ((fun c => "'" +:+ c +:+ "'") <$> unused) in
      let text :=
        "/* eslint @jespers/css-modules/no-unused-classes: [2, { markAsUsed: ["
        +:+ payload +:+ "] }] */" +:+ String "010" "" in
      suggestion_classNames s = payload
      ∧ suggestion_messageId s = "markAsUsed"
      ∧ suggestion_fix s
        = {| fix_range := ((range (importNode m)).1, (range (importNode m)).1);
             fix_text := text |}
      ∧ (∀ sourceText,
            ((range (importNode m)).1 ≤ String.length sourceText)%nat →
            ∃ before after,
              sourceText = before +:+ after
              ∧ String.length before = (range (importNode m)).1
              ∧ applyFix sourceText (suggestion_fix s)
                = before +:+ text +:+ after)
      ∧ ((∀ c, c ∈ unused → hasLineTerminator c = false) ↔
         ∃ line,
           text = line +:+ String "010" ""
           ∧ hasLineTerminator line = false).
Proof.
  intros Hr. apply elem_of_Program_exit in Hr as (key & file & Hf & Hr).
  apply reportFile_Some in Hr as (Hu & m & Hm & _ & Hnode & _ & _ & Hs).
  eexists key, file, m, _. split_and!; [done|done|done|exact Hs|].
  set (unused := unusedClassNames file (getMarkAsUsedOption (options context))).
  set (line := "/* eslint @jespers/css-modules/no-unused-classes: [2, { markAsUsed: ["
               +:+ getFixPayloadClassNames unused +:+ "] }] */").
  assert ("/* eslint @jespers/css-modules/no-unused-classes: [2, { markAsUsed: ["
          +:+ String.concat ", " ((fun c => "'" +:+ c +:+ "'") <$> unused)
          +:+ "] }] */" +:+ String "010" ""
          = line +:+ String "010" "") as Htext.
  { unfold line, getFixPayloadClassNames, join. by rewrite !append_assoc. }
  assert (hasLineTerminator line = false ↔
          ∀ c, c ∈ unused → hasLineTerminator c = false) as Hline.
  { unfold line. rewrite !hasLineTerminator_app. simpl.
    rewrite orb_false_r. unfold getFixPayloadClassNames. split.
    - intros H c Hc.
      rewrite <- hasLineTerminator_quote.
      apply (hasLineTerminator_join_inv ", " (quote <$> unused) H).
      apply list_elem_of_fmap. by exists c.
    - intros Hall. apply hasLineTerminator_join; [done|].
      intros x Hx. apply list_elem_of_fmap in Hx as (c & -> & Hc).
      rewrite hasLineTerminator_quote. by apply Hall. }
  cbv zeta. split_and!; [done|done|done| |].
  - intros sourceText Hle.
    destruct (substring_split _ _ Hle) as [E L].
    eexists _, _. split_and!; [exact E|exact L|done].
  - rewrite Htext. split.
    + intros Hall. exists line. split; [done|]. by apply Hline.
    + intros (line' & E & Hl). apply append_snoc_inj in E. subst line'.
      by apply Hline.
Qed.

(** ** The handlers, record by record *)

Lemma getCssFileClassNames_nil ast :
  getCssFileClassNames ast = [] ↔ walkClassSelectors ast = [].
Proof.
  unfold getCssFileClassNames. rewrite JSSet_addAll_nil. unfold JSSet.empty. tauto.
Qed.

Lemma elem_of_getCssFileClassNames ast c :
  c ∈ getCssFileClassNames ast ↔ c ∈ walkClassSelectors ast.
Proof.
  unfold getCssFileClassNames. rewrite JSSet_elem_of_addAll.
  unfold JSSet.empty. rewrite elem_of_nil. tauto.
Qed.

Lemma ImportDeclaration_None host context node files :
  ImportDeclaration host context node files = None ↔
  importedClassNames host context node = None.
Proof.
  unfold ImportDeclaration, importedClassNames, stylesheetPath.
  destruct (isCssFile _); [|done].
  destruct (fileExists _ _); [|done].
  destruct (parseCssFileAst _ _) as [ast|]; simpl; [|done].
  by destruct (0 <? _)%nat.
Qed.

Lemma ImportDeclaration_nothing host context node files :
  importedClassNames host context node = Some [] →
  ImportDeclaration host context node files = Some files.
Proof.
  unfold ImportDeclaration, importedClassNames, stylesheetPath.
  destruct (isCssFile _); [|done].
  destruct (fileExists _ _); [|done].
  destruct (parseCssFileAst _ _) as [ast|]; simpl; [|done].
  intros [= ->]. done.
Qed.

Lemma ImportDeclaration_lookup host context node files names :
  importedClassNames host context node = Some names → names ≠ [] →
  ∃ files',
    ImportDeclaration host context node files = Some files'
    ∧ ∀ key,
        files' !! key =
        if decide (key = getFilename context) then
          Some match files !! getFilename context with
               | Some file =>
                   withAvailable file
                     (JSSet.addAll (availableClassNames file) names)
               | None =>
                   {| availableClassNames := JSSet.addAll JSSet.empty names;
                      usedClassNames := JSSet.empty;
                      meta := Some {| importNode := node;
                                      cssFilePath := stylesheetPath host context node |} |}
               end
        else files !! key.
Proof.
  unfold ImportDeclaration, importedClassNames, stylesheetPath.
  destruct (isCssFile _); [|by intros [= <-]].
  destruct (fileExists _ _); [|by intros [= <-]].
  destruct (parseCssFileAst _ _) as [ast|]; simpl; [|done].
  intros [= <-] Hne.
  destruct (getCssFileClassNames ast) as [|c l] eqn:E; [done|]. simpl.
  eexists. split; [done|]. intros key. unfold JSSet.values.
  destruct (files !! getFilename context) as [file|] eqn:Ef; simpl.
  - rewrite lookup_alter. case_decide as Hk; case_decide as Hk'; try congruence.
    by rewrite Ef.
  - rewrite lookup_alter. case_decide as Hk; case_decide as Hk'; try congruence.
    + by rewrite lookup_insert_eq.
    + by rewrite lookup_insert_ne.
Qed.

Lemma MemberExpression_lookup context node files key :
  MemberExpression context node files !! key =
  match getPropertyName node with
  | Some propertyName =>
      if String.eqb propertyName "" then files !! key
      else if decide (key = getFilename context) then
        Some match files !! getFilename context with
             | Some file =>
                 withUsed file (JSSet.add (usedClassNames file) propertyName)
             | None =>
                 {| availableClassNames := JSSet.empty;
                    usedClassNames := JSSet.add JSSet.empty propertyName;
                    meta := None |}
             end
      else files !! key
  | None => files !! key
  end.
Proof.
  unfold MemberExpression. destruct (getPropertyName node) as [p|]; [|done].
  destruct (String.eqb p ""); [done|].
  destruct (files !! getFilename context) as [file|] eqn:Ef; simpl.
  - rewrite lookup_alter. case_decide as Hk; case_decide as Hk'; try congruence.
    by rewrite Ef.
  - rewrite lookup_alter. case_decide as Hk; case_decide as Hk'; try congruence.
    + by rewrite lookup_insert_eq.
    + by rewrite lookup_insert_ne.
Qed.

Lemma importedClassNames_Some host context node names :
  importedClassNames host context node = Some names → names ≠ [] →
  isCssFile (source_value node) = true
  ∧ fileExists host (stylesheetPath host context node) = true
  ∧ ∃ ast, parseCssFileAst host (stylesheetPath host context node) = Some ast
           ∧ names = getCssFileClassNames ast.
Proof.
  unfold importedClassNames.
  destruct (isCssFile _); [|by intros [= <-]].
  destruct (fileExists _ _); [|by intros [= <-]].
  destruct (parseCssFileAst _ _) as [ast|]; simpl; [|done].
  intros [= <-] _. eauto.
Qed.

(** C9. An import whose specifier is not a stylesheet module, whose path
    does not exist, or whose stylesheet declares no class selector leaves
    the map of records as it is; one whose stylesheet cannot be read or
    parsed throws. A name that is available after an import was available
    before in the same record, or is a class selector of the existing,
    parsed stylesheet of that import; a property access adds no available
    name to any record. *)
Theorem available_only_from_qualifying_imports
    (host : Host) (context : RuleContext) :
  (∀ node files,
      isCssFile (source_value node) = false
      ∨ fileExists host (stylesheetPath host context node) = false
      ∨ (∃ ast,
           parseCssFileAst host (stylesheetPath host context node) = Some ast
           ∧ walkClassSelectors ast = []) →
      ImportDeclaration host context node files = Some files)
  ∧ (∀ node files,
      isCssFile (source_value node) = true →
      fileExists host (stylesheetPath host context node) = true →
      parseCssFileAst host (stylesheetPath host context node) = None →
      ImportDeclaration host context node files = None)
  ∧ (∀ node files files' key file' c,
      ImportDeclaration host context node files = Some files' →
      files' !! key = Some file' →
      c ∈ availableClassNames file' →
      (∃ file, files !! key = Some file ∧ c ∈ availableClassNames file)
      ∨ (key = getFilename context
         ∧ isCssFile (source_value node) = true
         ∧ fileExists host (stylesheetPath host context node) = true
         ∧ ∃ ast,
             parseCssFileAst host (stylesheetPath host context node) = Some ast
             ∧ c ∈ walkClassSelectors ast))
  ∧ (∀ node files key file' c,
      MemberExpression context node files !! key = Some file' →
      c ∈ availableClassNames file' →
      ∃ file, files !! key = Some file ∧ c ∈ availableClassNames file).
Proof.
  split_and!.
  - intros node files H. apply ImportDeclaration_nothing.
    unfold importedClassNames.
    destruct H as [->|[H|(ast & Hp & Hw)]]; [done| |].
    + rewrite H. by destruct (isCssFile _).
    + rewrite Hp. simpl. apply getCssFileClassNames_nil in Hw. rewrite Hw.
      destruct (isCssFile (source_value node)); [|done].
      by destruct (fileExists host (stylesheetPath host context node)).
  - intros node files H1 H2 H3. apply ImportDeclaration_None.
    unfold importedClassNames. by rewrite H1, H2, H3.
  - intros node files files' key file' c Hi Hk Hc.
    destruct (importedClassNames host context node) as [names|] eqn:En;
      [|apply (ImportDeclaration_None _ _ _ files) in En; congruence].
    destruct (decide (names = [])) as [->|Hne].
    { rewrite (ImportDeclaration_nothing _ _ _ _ En) in Hi.
      injection Hi as <-. left. eauto. }
    destruct (ImportDeclaration_lookup host context node files _ En Hne)
      as (files'' & Hi' & Hl).
    rewrite Hi in Hi'. injection Hi' as <-.
    rewrite Hl in Hk.
    apply importedClassNames_Some in En as (Hcss & Hex & ast & Hp & Hn); [|done].
    case_decide as Hkey; [|left; eauto]. subst key.
    destruct (files !! getFilename context) as [file|] eqn:Ef;
      injection Hk as <-; cbn [availableClassNames withAvailable] in Hc;
      apply JSSet_elem_of_addAll in Hc as [Hc|Hc].
    + left. eauto.
    + right. split_and!; [done..|]. exists ast. split; [done|].
      apply elem_of_getCssFileClassNames. by rewrite <- Hn.
    + by apply elem_of_nil in Hc.
    + right. split_and!; [done..|]. exists ast. split; [done|].
      apply elem_of_getCssFileClassNames. by rewrite <- Hn.
  - intros node files key file' c Hk Hc.
    rewrite MemberExpression_lookup in Hk.
    destruct (getPropertyName node) as [p|]; [|eauto].
    destruct (String.eqb p ""); [eauto|].
    case_decide as Hkey; [|eauto]. subst key.
    destruct (files !! getFilename context) as [file|] eqn:Ef;
      injection Hk as <-; simpl in Hc.
    + eauto.
    + by apply elem_of_nil in Hc.
Qed.

(** ** The anchor *)

(** A visit never changes the anchor of a record that is already there,
    set or not. *)
Lemma visit_keeps_meta host context e files files' key file :
  visit host context e files = Some files' →
  files !! key = Some file →
  ∃ file', files' !! key = Some file' ∧ meta file' = meta file.
Proof.
  intros Hv Hf. destruct e as [node|node]; simpl in Hv.
  - destruct (importedClassNames host context node) as [names|] eqn:En;
      [|apply (ImportDeclaration_None _ _ _ files) in En; congruence].
    destruct names as [|n0 names].
    { rewrite (ImportDeclaration_nothing _ _ _ _ En) in Hv.
      injection Hv as <-. eauto. }
    destruct (ImportDeclaration_lookup host context node files _ En)
      as (files'' & Hi' & Hl); [done|].
    rewrite Hv in Hi'. injection Hi' as <-.
    rewrite Hl. case_decide as Hkey; [|eauto]. subst key. rewrite Hf. eauto.
  - injection Hv as <-. rewrite MemberExpression_lookup.
    destruct (getPropertyName node) as [p|]; [|eauto].
    destruct (String.eqb p ""); [eauto|].
    case_decide as Hkey; [|eauto]. subst key. rewrite Hf. eauto.
Qed.

Lemma traverse_keeps_meta host context events : ∀ files files' key file,
  traverse host context events files = Some files' →
  files !! key = Some file →
  ∃ file', files' !! key = Some file' ∧ meta file' = meta file.
Proof.
  induction events as [|e events IH]; intros files files' key file Ht Hf.
  - injection Ht as <-. eauto.
  - simpl in Ht. destruct (visit host context e files) as [files1|] eqn:Hv; [|done].
    simpl in Ht.
    destruct (visit_keeps_meta _ _ _ _ _ _ _ Hv Hf) as (file1 & Hf1 & Hm1).
    destruct (IH _ _ _ _ Ht Hf1) as (file' & Hf' & Hm').
    exists file'. split; [done|congruence].
Qed.

(** An import that yields class names sets the anchor of the record it
    creates to itself. *)
Lemma ImportDeclaration_sets_meta host context node files names :
  importedClassNames host context node = Some names → names ≠ [] →
  files !! getFilename context = None →
  ∃ files' file',
    ImportDeclaration host context node files = Some files'
    ∧ files' !! getFilename context = Some file'
    ∧ meta file' = Some {| importNode := node;
                           cssFilePath := stylesheetPath host context node |}.
Proof.
  intros En Hne Hf.
  destruct (ImportDeclaration_lookup host context node files _ En Hne)
    as (files' & Hi & Hl).
  eexists files', _. split; [done|]. rewrite Hl, Hf.
  case_decide; [|done]. done.
Qed.

(** ** A pass as the sum of what its events contribute *)

Lemma visit_None host context e files :
  visit host context e files = None ↔ contribution host context e = None.
Proof.
  destruct e as [node|node]; simpl; [|done].
  rewrite ImportDeclaration_None.
  by destruct (importedClassNames host context node).
Qed.

Lemma visit_Some host context e files a u :
  contribution host context e = Some (a, u) →
  ∃ files',
    visit host context e files = Some files'
    ∧ (∀ key, key ≠ getFilename context → files' !! key = files !! key)
    ∧ (is_Some (files' !! getFilename context) ↔
       is_Some (files !! getFilename context) ∨ a ≠ [] ∨ u ≠ [])
    ∧ (∀ c, c ∈ availableAt files' (getFilename context) ↔
            c ∈ availableAt files (getFilename context) ∨ c ∈ a)
    ∧ (∀ c, c ∈ usedAt files' (getFilename context) ↔
            c ∈ usedAt files (getFilename context) ∨ c ∈ u).
Proof.
  unfold availableAt, usedAt. destruct e as [node|node]; simpl.
  - destruct (importedClassNames host context node) as [names|] eqn:En; [|done].
    simpl. intros [= <- <-].
    destruct (decide (names = [])) as [->|Hne].
    { exists files. rewrite (ImportDeclaration_nothing _ _ _ _ En).
      split_and!; [done|done|(split; [by left|by intros [?|[?|?]]])|intros c|intros c];
        rewrite elem_of_nil; tauto. }
    destruct (ImportDeclaration_lookup host context node files _ En Hne)
      as (files' & Hi & Hl).
    exists files'. split; [done|]. split_and!.
    + intros key Hk. rewrite Hl. by case_decide.
    + rewrite Hl. case_decide; [|done]. split; [auto|by eexists].
    + intros c. rewrite Hl. case_decide; [|done].
      destruct (files !! getFilename context) as [file|]; simpl;
        by rewrite JSSet_elem_of_addAll.
    + intros c. rewrite Hl. case_decide; [|done]. rewrite elem_of_nil.
      destruct (files !! getFilename context) as [file|]; simpl; tauto.
  - intros [= <- <-]. eexists. split; [done|].
    setoid_rewrite MemberExpression_lookup.
    destruct (getPropertyName node) as [p|].
    2:{ split_and!; [done|(split; [by left|by intros [?|[?|?]]])|intros c|intros c];
        rewrite elem_of_nil; tauto. }
    destruct (String.eqb p "").
    { split_and!; [done|(split; [by left|by intros [?|[?|?]]])|intros c|intros c];
      rewrite elem_of_nil; tauto. }
    split_and!.
    + intros key Hk. by case_decide.
    + case_decide; [|done]. split; [auto|by eexists].
    + intros c. case_decide; [|done]. rewrite elem_of_nil.
      destruct (files !! getFilename context) as [file|]; simpl; tauto.
    + intros c. case_decide; [|done]. rewrite list_elem_of_singleton.
      destruct (files !! getFilename context) as [file|]; simpl;
        rewrite JSSet_elem_of_add; [done|].
      unfold JSSet.empty. rewrite elem_of_nil. tauto.
Qed.

Lemma visit_wellFormed host context e files files' :
  wellFormed files → visit host context e files = Some files' →
  wellFormed files'.
Proof.
  intros Hwf Hv key file' Hk. destruct e as [node|node]; simpl in Hv.
  - destruct (importedClassNames host context node) as [names|] eqn:En;
      [|apply (ImportDeclaration_None _ _ _ files) in En; congruence].
    destruct (decide (names = [])) as [->|Hne].
    { rewrite (ImportDeclaration_nothing _ _ _ _ En) in Hv.
      injection Hv as <-. eauto. }
    destruct (ImportDeclaration_lookup host context node files _ En Hne)
      as (files'' & Hi' & Hl).
    rewrite Hv in Hi'. injection Hi' as <-. rewrite Hl in Hk.
    case_decide as Hkey; [|eauto]. subst key.
    destruct (files !! getFilename context) as [file|] eqn:Ef;
      injection Hk as <-; simpl.
    + destruct (Hwf _ _ Ef). split; [by apply JSSet_NoDup_addAll|done].
    + split; [apply JSSet_NoDup_addAll|]; apply NoDup_nil_2.
  - injection Hv as <-. rewrite MemberExpression_lookup in Hk.
    destruct (getPropertyName node) as [p|]; [|eauto].
    destruct (String.eqb p ""); [eauto|].
    case_decide as Hkey; [|eauto]. subst key.
    destruct (files !! getFilename context) as [file|] eqn:Ef;
      injection Hk as <-; simpl.
    + destruct (Hwf _ _ Ef). split; [done|by apply JSSet_NoDup_add].
    + split; [|apply JSSet_NoDup_add]; apply NoDup_nil_2.
Qed.

Lemma traverse_wellFormed host context events : ∀ files files',
  wellFormed files → traverse host context events files = Some files' →
  wellFormed files'.
Proof.
  induction events as [|e events IH]; intros files files' Hwf Ht.
  - by injection Ht as <-.
  - simpl in Ht. destruct (visit host context e files) as [files1|] eqn:Hv; [|done].
    eapply IH; [|exact Ht]. by eapply visit_wellFormed.
Qed.

Lemma traverse_None host context events : ∀ files,
  traverse host context events files = None ↔
  ∃ e, e ∈ events ∧ contribution host context e = None.
Proof.
  induction events as [|e events IH]; intros files; simpl.
  - split; [done|]. intros (e & He & _). by apply elem_of_nil in He.
  - destruct (visit host context e files) as [files1|] eqn:Hv; simpl.
    + rewrite IH. split.
      * intros (e' & He' & Hc). exists e'. split; [by apply list_elem_of_further|done].
      * intros (e' & He' & Hc). apply elem_of_cons in He' as [->|He'].
        -- apply (visit_None _ _ _ files) in Hc. congruence.
        -- eauto.
    + split; [|done]. intros _. exists e. split; [apply list_elem_of_here|].
      by apply (visit_None _ _ _ files).
Qed.

(** The contributions of [e :: events] are that of [e] and those of
    [events]. *)
Lemma contributes_cons host context e events a u
    (P : list string → list string → Prop) (Q : Prop) :
  contribution host context e = Some (a, u) →
  (Q ∨ P a u)
  ∨ (∃ e' a' u', e' ∈ events ∧ contribution host context e' = Some (a', u')
                 ∧ P a' u')
  ↔ Q ∨ (∃ e' a' u', e' ∈ e :: events
                     ∧ contribution host context e' = Some (a', u') ∧ P a' u').
Proof.
  intros Hc. split.
  - intros [[?|?]|(e' & a' & u' & He' & Hc' & HP)]; [by left| |].
    + right. exists e, a, u. split; [apply list_elem_of_here|done].
    + right. exists e', a', u'. split; [by apply list_elem_of_further|done].
  - intros [?|(e' & a' & u' & He' & Hc' & HP)]; [by left; left|].
    apply elem_of_cons in He' as [->|He'].
    + rewrite Hc in Hc'. injection Hc' as <- <-. by left; right.
    + right. eauto 10.
Qed.

Lemma traverse_Some host context events : ∀ files files',
  traverse host context events files = Some files' →
  (∀ key, key ≠ getFilename context → files' !! key = files !! key)
  ∧ (is_Some (files' !! getFilename context) ↔
     is_Some (files !! getFilename context)
     ∨ ∃ e a u, e ∈ events ∧ contribution host context e = Some (a, u)
                ∧ (a ≠ [] ∨ u ≠ []))
  ∧ (∀ c, c ∈ availableAt files' (getFilename context) ↔
          c ∈ availableAt files (getFilename context)
          ∨ ∃ e a u, e ∈ events ∧ contribution host context e = Some (a, u)
                     ∧ c ∈ a)
  ∧ (∀ c, c ∈ usedAt files' (getFilename context) ↔
          c ∈ usedAt files (getFilename context)
          ∨ ∃ e a u, e ∈ events ∧ contribution host context e = Some (a, u)
                     ∧ c ∈ u).
Proof.
  induction events as [|e events IH]; intros files files' Ht.
  - injection Ht as <-.
    split_and!; [done|..]; (split; [by left|]);
      (intros [?|(e & ? & ? & He & _)]; [done|]); by apply elem_of_nil in He.
  - simpl in Ht. destruct (visit host context e files) as [files1|] eqn:Hv; [|done].
    simpl in Ht.
    destruct (contribution host context e) as [[a u]|] eqn:Hc;
      [|apply (visit_None _ _ _ files) in Hc; congruence].
    destruct (visit_Some host context e files a u Hc)
      as (files1' & Hv' & Hother & Hsome & Hav & Hus).
    rewrite Hv in Hv'. injection Hv' as <-.
    destruct (IH _ _ Ht) as (Hother' & Hsome' & Hav' & Hus').
    split_and!.
    + intros key Hk. by rewrite Hother', Hother.
    + rewrite Hsome', Hsome.
      by apply (contributes_cons _ _ _ _ a u (λ a u, a ≠ [] ∨ u ≠ [])).
    + intros c. rewrite Hav', Hav.
      by apply (contributes_cons _ _ _ _ a u (λ a u, c ∈ a)).
    + intros c. rewrite Hus', Hus.
      by apply (contributes_cons _ _ _ _ a u (λ a u, c ∈ u)).
Qed.

Lemma contributes_perm host context (evs1 evs2 : list Event)
    (P : list string → list string → Prop) :
  evs1 ≡ₚ evs2 →
  (∃ e a u, e ∈ evs1 ∧ contribution host context e = Some (a, u) ∧ P a u) →
  (∃ e a u, e ∈ evs2 ∧ contribution host context e = Some (a, u) ∧ P a u).
Proof.
  intros Hp (e & a & u & He & Hc & HP). exists e, a, u.
  split; [by rewrite <- Hp|done].
Qed.

Lemma wellFormed_empty : wellFormed ∅.
Proof. intros key file H. by rewrite lookup_empty in H. Qed.

(** C5. Two passes over the same events in different orders end alike:
    both throw, or both finish with records under the same keys whose
    available sets hold the same names and whose used sets hold the same
    names (the insertion order may differ). *)
Theorem final_sets_independent_of_order
    (host : Host) (context : RuleContext) (evs1 evs2 : list Event) :
  evs1 ≡ₚ evs2 →
  sameOutcome (traverse host context evs1 ∅) (traverse host context evs2 ∅).
Proof.
  intros Hp. pose proof wellFormed_empty as Hwf. unfold sameOutcome.
  destruct (traverse host context evs1 ∅) as [files1|] eqn:H1;
    destruct (traverse host context evs2 ∅) as [files2|] eqn:H2.
  - constructor. intros key.
    destruct (traverse_Some _ _ _ _ _ H1) as (Ho1 & Hs1 & Ha1 & Hu1).
    destruct (traverse_Some _ _ _ _ _ H2) as (Ho2 & Hs2 & Ha2 & Hu2).
    destruct (decide (key = getFilename context)) as [->|Hk].
    2:{ rewrite Ho1, Ho2, lookup_empty by done. constructor. }
    assert (is_Some (files1 !! getFilename context) ↔
            is_Some (files2 !! getFilename context)) as Hsome.
    { rewrite Hs1, Hs2. split; (intros [?|Hex]; [by left|right]).
      - revert Hex. by apply (contributes_perm _ _ _ _ (λ a u, a ≠ [] ∨ u ≠ [])).
      - revert Hex. by apply (contributes_perm _ _ _ _ (λ a u, a ≠ [] ∨ u ≠ [])). }
    pose proof (traverse_wellFormed _ _ _ _ _ Hwf H1) as Hwf1.
    pose proof (traverse_wellFormed _ _ _ _ _ Hwf H2) as Hwf2.
    unfold availableAt, usedAt in *.
    destruct (files1 !! getFilename context) as [f1|] eqn:E1;
      destruct (files2 !! getFilename context) as [f2|] eqn:E2.
    + constructor. destruct (Hwf1 _ _ E1), (Hwf2 _ _ E2).
      simpl in *. split; apply NoDup_Permutation; try done.
      * intros c. rewrite Ha1, Ha2. split; (intros [?|Hex]; [by left|right]).
        -- revert Hex. by apply (contributes_perm _ _ _ _ (λ a u, c ∈ a)).
        -- revert Hex. by apply (contributes_perm _ _ _ _ (λ a u, c ∈ a)).
      * intros c. rewrite Hu1, Hu2. split; (intros [?|Hex]; [by left|right]).
        -- revert Hex. by apply (contributes_perm _ _ _ _ (λ a u, c ∈ u)).
        -- revert Hex. by apply (contributes_perm _ _ _ _ (λ a u, c ∈ u)).
    + destruct Hsome as [Hsome _]. by destruct Hsome.
    + destruct Hsome as [_ Hsome]. by destruct Hsome.
    + constructor.
  - exfalso. apply traverse_None in H2 as (e & He & Hc).
    assert (traverse host context evs1 ∅ = None) as Hnone; [|congruence].
    apply traverse_None. exists e. split; [by rewrite Hp|done].
  - exfalso. apply traverse_None in H1 as (e & He & Hc).
    assert (traverse host context evs2 ∅ = None) as Hnone; [|congruence].
    apply traverse_None. exists e. split; [by rewrite <- Hp|done].
  - constructor.
Qed.

(** ** The recognition pattern *)

Lemma canonicalizeString_nil s : RegExp.canonicalizeString s = "" → s = "".
Proof. by destruct s. Qed.

Lemma canonicalizeString_split p q : ∀ s,
  RegExp.canonicalizeString s = RegExp.canonicalizeString (p +:+ q) →
  ∃ y z, s = y +:+ z
         ∧ RegExp.canonicalizeString y = RegExp.canonicalizeString p
         ∧ RegExp.canonicalizeString z = RegExp.canonicalizeString q.
Proof.
  induction p as [|c p IH]; intros s H.
  - by exists "", s.
  - destruct s as [|a s]; [done|].
    rewrite append_cons in H. simpl in H. injection H as Ha Hs.
    destruct (IH _ Hs) as (y & z & -> & Hy & Hz).
    exists (String a y), z. simpl. by rewrite Ha, Hy.
Qed.

Lemma canonicalizeString_app s t :
  RegExp.canonicalizeString (s +:+ t)
  = RegExp.canonicalizeString s +:+ RegExp.canonicalizeString t.
Proof.
  induction s as [|a s IH]; [done|].
  rewrite append_cons. simpl. by rewrite IH.
Qed.

Lemma m_lit p : ∀ s k,
  RegExp.m true (RegExp.lit p) s k = true ↔
  ∃ x rest, s = x +:+ rest
            ∧ RegExp.canonicalizeString x = RegExp.canonicalizeString p
            ∧ k rest = true.
Proof.
  induction p as [|c p IH]; intros s k.
  - simpl. split.
    + intros H. by exists "", s.
    + intros (x & rest & -> & Hx & Hk). apply canonicalizeString_nil in Hx.
      by subst.
  - cbn [RegExp.lit RegExp.m]. destruct s as [|a s].
    + split; [done|]. intros (x & rest & E & Hx & _). by destruct x.
    + rewrite andb_true_iff, IH. unfold RegExp.charMatches.
      rewrite bool_decide_eq_true. split.
      * intros (Hc & x & rest & -> & Hx & Hk). exists (String a x), rest.
        simpl. by rewrite <- Hc, Hx.
      * intros (x & rest & E & Hx & Hk). destruct x as [|b x]; [done|].
        simpl in Hx. injection Hx as Hb Hx.
        rewrite append_cons in E. injection E as -> ->. eauto 10.
Qed.

Lemma plusLoop_dot k : ∀ fuel s,
  (String.length s ≤ S fuel)%nat →
  RegExp.plusLoop (RegExp.m true RegExp.Dot) k fuel s = true ↔
  ∃ x rest, s = x +:+ rest ∧ x ≠ ""
            ∧ hasLineTerminator x = false ∧ k rest = true.
Proof.
  induction fuel as [|fuel IH]; intros s Hlen; destruct s as [|a s]; simpl.
  - split; [done|]. intros (x & rest & E & Hx & _). by destruct x.
  - simpl in Hlen. assert (s = "") as -> by (destruct s; simpl in *; [done|lia]).
    rewrite andb_true_iff, negb_true_iff. split.
    + intros [Ha Hk]. exists (String a ""), "". simpl. by rewrite Ha.
    + intros (x & rest & E & Hx & Hlt & Hk). destruct x as [|b x]; [done|].
      rewrite append_cons in E. injection E as -> E.
      destruct x; [|done]. rewrite append_nil_l in E. subst rest.
      simpl in Hlt. by rewrite orb_false_r in Hlt.
  - split; [done|]. intros (x & rest & E & Hx & _). by destruct x.
  - simpl in Hlen.
    rewrite andb_true_iff, negb_true_iff, orb_true_iff.
    change ((fix loop (fuel0 : nat) (s0 : string) {struct fuel0} : bool :=
               _) fuel s)
      with (RegExp.plusLoop (RegExp.m true RegExp.Dot) k fuel s).
    rewrite IH by lia. split.
    + intros [Ha [(x & rest & -> & Hx & Hlt & Hk)|Hk]].
      * exists (String a x), rest. simpl. by rewrite Ha, Hlt.
      * exists (String a ""), s. simpl. by rewrite Ha.
    + intros (x & rest & E & Hx & Hlt & Hk). destruct x as [|b x]; [done|].
      rewrite append_cons in E. injection E as -> ->.
      simpl in Hlt. apply orb_false_iff in Hlt as [Hb Hlt]. split; [done|].
      destruct x as [|c x]; [by right|].
      left. by exists (String c x), rest.
Qed.

Lemma test_spec r : ∀ s,
  RegExp.test true r s = true ↔
  ∃ front rest, s = front +:+ rest
                ∧ RegExp.m true r rest (fun _ => true) = true.
Proof.
  induction s as [|a s IH]; cbn [RegExp.test].
  - rewrite orb_false_r. split.
    + intros H. by exists "", "".
    + intros (front & rest & E & H). destruct front; [|done].
      rewrite append_nil_l in E. by subst.
  - rewrite orb_true_iff, IH. split.
    + intros [H|(front & rest & -> & H)].
      * by exists "", (String a s).
      * by exists (String a front), rest.
    + intros (front & rest & E & H). destruct front as [|b front].
      * rewrite append_nil_l in E. subst rest. by left.
      * rewrite append_cons in E. injection E as -> ->. right. eauto.
Qed.

Lemma string_snoc x :
  x ≠ "" →
  ∃ x' c, x = x' +:+ String c ""
          ∧ (hasLineTerminator x = false → RegExp.isLineTerminator c = false).
Proof.
  induction x as [|a x IH]; [done|]. intros _.
  destruct x as [|b x].
  - exists "", a. split; [done|]. simpl. by rewrite orb_false_r.
  - destruct IH as (x' & c & E & Hc); [done|].
    exists (String a x'), c. rewrite append_cons, <- E. split; [done|].
    intros H. apply Hc. simpl in H. simpl.
    by apply orb_false_iff in H as [_ H].
Qed.

(** The recognition test, spelled out: the specifier ends, up to the case
    of ASCII letters, in one of the two suffixes, and the suffix follows a
    character that is not a line terminator. *)
Lemma isCssFile_true s :
  isCssFile s = true ↔
  ∃ front c suffix,
    s = front +:+ String c suffix
    ∧ RegExp.isLineTerminator c = false
    ∧ (RegExp.canonicalizeString suffix = RegExp.canonicalizeString ".module.css"
       ∨ RegExp.canonicalizeString suffix = RegExp.canonicalizeString ".module.scss").
Proof.
  unfold isCssFile, cssFilePattern. rewrite test_spec. split.
  - intros (front & rest & -> & H). cbn [RegExp.m] in H.
    apply plusLoop_dot in H as (x & r1 & -> & Hx & Hlt & H); [|lia].
    apply m_lit in H as (y & r2 & -> & Hy & H).
    apply string_snoc in Hx as (x' & c & -> & Hc).
    exists (front +:+ x'), c, (y +:+ r2). split_and!.
    + by rewrite !append_assoc.
    + by apply Hc.
    + apply orb_true_iff in H as [H|H];
        apply m_lit in H as (z & r3 & -> & Hz & H); destruct r3; try done;
        rewrite append_nil_r, canonicalizeString_app, Hy, Hz; [by right|by left].
  - intros (front & c & suffix & -> & Hc & Hs).
    exists front, (String c suffix). split; [done|]. cbn [RegExp.m].
    apply plusLoop_dot; [lia|]. exists (String c ""), suffix.
    split_and!; [done|done|by simpl; rewrite Hc|].
    apply m_lit. destruct Hs as [Hs|Hs].
    + apply (canonicalizeString_split ".module." "css") in Hs
        as (y & z & -> & Hy & Hz).
      exists y, z. split_and!; [done..|]. apply orb_true_iff. right.
      apply m_lit. exists z, "". by rewrite append_nil_r.
    + apply (canonicalizeString_split ".module." "scss") in Hs
        as (y & z & -> & Hy & Hz).
      exists y, z. split_and!; [done..|]. apply orb_true_iff. left.
      apply m_lit. exists z, "". by rewrite append_nil_r.
Qed.

Lemma length_canonicalizeString s :
  String.length (RegExp.canonicalizeString s) = String.length s.
Proof. induction s as [|a s IH]; [done|]. simpl. by rewrite IH. Qed.

Lemma substring_app a b :
  String.substring (String.length a) (String.length b) (a +:+ b) = b.
Proof.
  induction a as [|c a IH]; [apply substring_all|].
  rewrite append_cons. simpl. exact IH.
Qed.

Lemma endsWithIgnoreCase_app front suffix p :
  RegExp.canonicalizeString suffix = RegExp.canonicalizeString p →
  endsWithIgnoreCase (front +:+ suffix) p = true.
Proof.
  intros H. unfold endsWithIgnoreCase.
  assert (String.length p = String.length suffix) as ->.
  { by rewrite <- (length_canonicalizeString p), <- H, length_canonicalizeString. }
  rewrite length_append.
  replace (String.length front + String.length suffix - String.length suffix)
    with (String.length front) by lia.
  rewrite substring_app, H, String.eqb_refl, andb_true_r.
  apply Nat.leb_le. lia.
Qed.

(** C6, as the code has it. A specifier is recognized exactly when it ends,
    up to the case of ASCII letters, in [.module.css] or [.module.scss] and
    that suffix follows at least one character, the last of which is not a
    line terminator. So every recognized specifier passes the suffix test of
    the specification, and a specifier that is not recognized is not
    inspected further: the handler leaves the records as they are. *)
Theorem recognition_is_suffix_after_a_character (s : string) :
  (isCssFile s = true ↔
   ∃ front c suffix,
     s = front +:+ String c suffix
     ∧ RegExp.isLineTerminator c = false
     ∧ (RegExp.canonicalizeString suffix = RegExp.canonicalizeString ".module.css"
        ∨ RegExp.canonicalizeString suffix
          = RegExp.canonicalizeString ".module.scss"))
  ∧ (isCssFile s = true → spec_isCssFile s = true)
  ∧ (∀ host context node files,
       source_value node = s → isCssFile s = false →
       ImportDeclaration host context node files = Some files).
Proof.
  split_and!.
  - apply isCssFile_true.
  - intros H. apply isCssFile_true in H as (front & c & suffix & -> & _ & Hs).
    unfold spec_isCssFile. apply orb_true_iff.
    replace (front +:+ String c suffix) with ((front +:+ String c "") +:+ suffix)
      by (by rewrite append_assoc).
    destruct Hs as [Hs|Hs]; [left|right]; by apply endsWithIgnoreCase_app.
  - intros host context node files <- H. unfold ImportDeclaration. by rewrite H.
Qed.

(** C10. The bare suffixes [.module.css] and [.module.scss] are not
    recognized: a recognized specifier has a character before its suffix,
    so it is longer than the suffix alone. An import of a bare suffix
    leaves the records as they are and contributes no name. *)
Theorem bare_suffix_is_not_recognized :
  isCssFile ".module.css" = false
  ∧ isCssFile ".module.scss" = false
  ∧ (∀ s, isCssFile s = true →
          ∃ front c suffix,
            s = front +:+ String c suffix
            ∧ (RegExp.canonicalizeString suffix
               = RegExp.canonicalizeString ".module.css"
               ∨ RegExp.canonicalizeString suffix
                 = RegExp.canonicalizeString ".module.scss"))
  ∧ (∀ host context node files,
       source_value node = ".module.css" ∨ source_value node = ".module.scss" →
       ImportDeclaration host context node files = Some files
       ∧ contribution host context (VisitImportDeclaration node) = Some ([], [])).
Proof.
  split_and!; [done|done| |].
  - intros s H. apply isCssFile_true in H as (front & c & suffix & E & _ & Hs).
    eauto.
  - intros host context node files H.
    assert (isCssFile (source_value node) = false) as Hn
      by (by destruct H as [-> | ->]).
    unfold contribution, importedClassNames, ImportDeclaration.
    by rewrite Hn.
Qed.

(** C1, at an input where the code departs from it. A property access
    comes first and creates the record; the import of [./a.module.css],
    whose stylesheet declares the class [x], then adds [x] to the record
    but leaves it without an anchor, and [Program:exit] reports nothing
    although [x] is unused. With the two events in the other order the
    anchor is that import and [x] is reported. *)
Theorem anchor_not_set_when_record_precedes_import :
  importedClassNames Demo.host (Demo.context None)
    (Demo.importNodeOf "./a.module.css" 30) = Some ["x"]
  ∧ (map_to_list <$>
       traverse Demo.host (Demo.context None)
         [Demo.access "foo"; Demo.import "./a.module.css" 30] ∅)
    = Some [("/src/App.tsx", Demo.orphan)]
  ∧ unusedClassNames Demo.orphan [] = ["x"]
  ∧ lint Demo.host (Demo.context None)
      [Demo.access "foo"; Demo.import "./a.module.css" 30] = Some []
  ∧ (report_node <$>
       default [] (lint Demo.host (Demo.context None)
                     [Demo.import "./a.module.css" 30; Demo.access "foo"]))
    = [Demo.importNodeOf "./a.module.css" 30].
Proof. split_and!; vm_compute; reflexivity. Qed.

(** ** The properties at concrete inputs *)

(** The suffix test of the specification accepts the bare suffix, the code
    does not. *)
Lemma suffix_test_accepts_bare_suffix :
  spec_isCssFile ".module.css" = true ∧ isCssFile ".module.css" = false.
Proof. split; vm_compute; reflexivity. Qed.

Lemma recognition_is_suffix_after_a_character_witness :
  isCssFile "./a.Module.CSS" = true ∧ spec_isCssFile "./a.Module.CSS" = true.
Proof.
  split; [reflexivity|].
  apply (proj1 (proj2 (recognition_is_suffix_after_a_character "./a.Module.CSS"))).
  reflexivity.
Defined.

Lemma bare_suffix_is_not_recognized_witness :
  source_value (Demo.importNodeOf ".module.css" 0) = ".module.css"
  ∧ ImportDeclaration Demo.host (Demo.context None)
      (Demo.importNodeOf ".module.css" 0) Demo.fiveFiles
    = Some Demo.fiveFiles.
Proof.
  split; [reflexivity|].
  apply (proj2 (proj2 (proj2 bare_suffix_is_not_recognized))).
  left. reflexivity.
Defined.

Lemma pretty_summary_truncation_witness :
  ["a"; "b"; "c"; "d"; "e"] ≠ []
  ∧ getPrettyUnusedClassNames ["a"; "b"; "c"; "d"; "e"]
    = "'a', 'b', 'c'... (+2 more)".
Proof.
  split; [discriminate|].
  exact (proj1 (pretty_summary_truncation ["a"; "b"; "c"; "d"; "e"]
                  ltac:(discriminate))).
Defined.

Lemma report_has_one_complete_fix_witness :
  let context := Demo.context None in
  let files := Demo.fiveFiles in
  let r := Demo.fiveReport in
  r ∈ Program_exit context files
  ∧ ∃ key file m s,
      files !! key = Some file
      ∧ meta file = Some m
      ∧ report_node r = importNode m
      ∧ report_suggest r = [s]
      ∧ let unused :=
          unusedClassNames file (getMarkAsUsedOption (options context)) in
        let payload :=
          String.concat ", " ((fun c => "'" +:+ c +:+ "'") <$> unused) in
        let text :=
          "/* eslint @jespers/css-modules/no-unused-classes: [2, { markAsUsed: ["
          +:+ payload +:+ "] }] */" +:+ String "010" "" in
        suggestion_classNames s = payload
        ∧ suggestion_messageId s = "markAsUsed"
        ∧ suggestion_fix s
          = {| fix_range := ((range (importNode m)).1, (range (importNode m)).1);
               fix_text := text |}
        ∧ (∀ sourceText,
              ((range (importNode m)).1 ≤ String.length sourceText)%nat →
              ∃ before after,
                sourceText = before +:+ after
                ∧ String.length before = (range (importNode m)).1
                ∧ applyFix sourceText (suggestion_fix s)
                  = before +:+ text +:+ after)
        ∧ ((∀ c, c ∈ unused → hasLineTerminator c = false) ↔
           ∃ line,
             text = line +:+ String "010" ""
             ∧ hasLineTerminator line = false).
Proof.
  intros context files r.
  assert (r ∈ Program_exit context files) as Hin.
  { vm_compute. apply list_elem_of_here. }
  split; [exact Hin|].
  exact (report_has_one_complete_fix context files r Hin).
Defined.

(** With a class name that holds a line feed the text the fix inserts has
    a line feed inside: it is not one line. *)
Lemma fix_text_spans_two_lines :
  ∃ r s,
    lint Demo.lineFeedHost (Demo.context None) [Demo.import "./a.module.css" 0]
    = Some [r]
    ∧ report_suggest r = [s]
    ∧ fix_text (suggestion_fix s)
      = "/* eslint @jespers/css-modules/no-unused-classes: [2, { markAsUsed: ['a"
        +:+ String "010" "b'] }] */" +:+ String "010" ""
    ∧ ¬ ∃ line,
          fix_text (suggestion_fix s) = line +:+ String "010" ""
          ∧ hasLineTerminator line = false.
Proof.
  eexists _, _. split_and!.
  - vm_compute. reflexivity.
  - reflexivity.
  - vm_compute. reflexivity.
  - intros (line & E & Hl).
    change (fix_text _)
      with (("/* eslint @jespers/css-modules/no-unused-classes: [2, { markAsUsed: ['a"
             +:+ String "010" "b'] }] */") +:+ String "010" "") in E.
    apply append_snoc_inj in E. subst line. vm_compute in Hl. discriminate Hl.
Qed.

Lemma final_sets_independent_of_order_witness :
  [Demo.access "a"; Demo.import "./abc.module.css" 0]
    ≡ₚ [Demo.import "./abc.module.css" 0; Demo.access "a"]
  ∧ sameOutcome
      (traverse Demo.host (Demo.context None)
         [Demo.access "a"; Demo.import "./abc.module.css" 0] ∅)
      (traverse Demo.host (Demo.context None)
         [Demo.import "./abc.module.css" 0; Demo.access "a"] ∅).
Proof.
  split; [apply perm_swap|].
  apply final_sets_independent_of_order, perm_swap.
Defined.

Lemma no_report_without_unused_or_anchor_witness :
  meta Demo.orphan = None ∧ reportFile [] Demo.orphan = None.
Proof.
  split; [reflexivity|].
  apply (proj1 (no_report_without_unused_or_anchor (Demo.context None) ∅)).
  right. left. reflexivity.
Defined.

Lemma available_only_from_qualifying_imports_witness :
  isCssFile (source_value (Demo.importNodeOf "./styles.css" 0)) = false
  ∧ ImportDeclaration Demo.host (Demo.context None)
      (Demo.importNodeOf "./styles.css" 0) Demo.fiveFiles
    = Some Demo.fiveFiles.
Proof.
  split; [reflexivity|].
  apply (proj1 (available_only_from_qualifying_imports
                  Demo.host (Demo.context None))).
  left. reflexivity.
Defined.

(** * Further properties of the rule *)

(** ** Sets, again *)

Lemma JSSet_addAll_extends xs : ∀ s,
  ∃ t, JSSet.addAll s xs = (s ++ t)%list ∧ sublist t xs.
Proof.
  unfold JSSet.addAll. induction xs as [|x xs IH]; intros s; simpl.
  - exists []. by rewrite app_nil_r.
  - destruct (IH (JSSet.add s x)) as (t & Ht & Hsub). rewrite Ht.
    unfold JSSet.add. destruct (JSSet.has s x).
    + exists t. split; [done|]. by apply sublist_cons.
    + exists (x :: t). split; [by rewrite <- app_assoc|]. by apply sublist_skip.
Qed.

Lemma JSSet_addAll_prefix s xs : s `prefix_of` JSSet.addAll s xs.
Proof.
  destruct (JSSet_addAll_extends xs s) as (t & -> & _). by apply prefix_app_r.
Qed.

Lemma JSSet_add_prefix s x : s `prefix_of` JSSet.add s x.
Proof. apply (JSSet_addAll_prefix s [x]). Qed.

Lemma JSSet_addAll_absorb xs : ∀ s,
  (∀ x, x ∈ xs → x ∈ s) → JSSet.addAll s xs = s.
Proof.
  unfold JSSet.addAll. induction xs as [|x xs IH]; intros s Hall; [done|].
  simpl. assert (JSSet.add s x = s) as ->.
  { unfold JSSet.add.
    by rewrite (proj2 (JSSet_has_true s x) (Hall x (list_elem_of_here _ _))). }
  apply IH. intros y Hy. apply Hall. by apply list_elem_of_further.
Qed.

(** ** The helpers *)

(** X1. The class names of a stylesheet tree are the names of its
    class selectors, each once, in the order in which the walk meets them:
    the result has no duplicate, holds exactly the names of the walk, is a
    subsequence of the walk, and is empty exactly when the tree has no
    class selector. *)
Theorem getCssFileClassNames_distinct_in_walk_order (cssAst : CssNode) :
  NoDup (getCssFileClassNames cssAst)
  ∧ (∀ c, c ∈ getCssFileClassNames cssAst ↔ c ∈ walkClassSelectors cssAst)
  ∧ sublist (getCssFileClassNames cssAst) (walkClassSelectors cssAst)
  ∧ (getCssFileClassNames cssAst = [] ↔ walkClassSelectors cssAst = []).
Proof.
  split_and!.
  - apply JSSet_NoDup_addAll, NoDup_nil_2.
  - intros c. apply elem_of_getCssFileClassNames.
  - unfold getCssFileClassNames.
    destruct (JSSet_addAll_extends (walkClassSelectors cssAst) JSSet.empty)
      as (t & -> & Hsub). done.
  - apply getCssFileClassNames_nil.
Qed.

(** X2. Only the first element of the options is read: a name is marked as
    used exactly when that element exists, has a [markAsUsed] list and the
    list holds the name. Without options, or without the list, nothing is
    marked; a name listed twice is marked once. *)
Theorem getMarkAsUsedOption_reads_first_option
    (options : list MarkAsUsedOptions) :
  (∀ c, c ∈ getMarkAsUsedOption options ↔
        ∃ o rest names,
          options = o :: rest ∧ markAsUsed o = Some names ∧ c ∈ names)
  ∧ NoDup (getMarkAsUsedOption options)
  ∧ (getMarkAsUsedOption options = [] ↔
     ∀ o rest names,
       options = o :: rest → markAsUsed o = Some names → names = []).
Proof.
  unfold getMarkAsUsedOption.
  destruct options as [|o rest]; [|destruct (markAsUsed o) as [names|] eqn:Eo].
  - split_and!; [|apply NoDup_nil_2|done].
    intros c. rewrite elem_of_nil. split; [done|]. by intros (? & ? & ? & ? & _).
  - split_and!.
    + intros c. rewrite JSSet_elem_of_addAll. unfold JSSet.empty.
      rewrite elem_of_nil. split.
      * intros [[]|Hc]. by exists o, rest, names.
      * intros (o' & rest' & names' & [= <- <-] & Hm & Hc). right. congruence.
    + apply JSSet_NoDup_addAll, NoDup_nil_2.
    + rewrite JSSet_addAll_nil. split.
      * intros [_ ->] o' rest' names' [= <- <-] Hm. congruence.
      * intros H. split; [done|]. by apply (H o rest).
  - split_and!; [|apply NoDup_nil_2|].
    + intros c. rewrite elem_of_nil. split; [done|].
      intros (o' & rest' & names' & [= <- <-] & Hm & _). congruence.
    + split; [|done]. intros _ o' rest' names' [= <- <-] Hm. congruence.
Qed.

(** X3. The base path setting is returned exactly when the settings are an
    object whose plugin entry is an object whose [basePath] is a non-empty
    string; so the result is never the empty string, and settings that are
    [undefined], [null] or a primitive give no base path. *)
Theorem getBasePathSetting_Some_iff (settings : JsValue) (s : string) :
  getBasePathSetting settings = Some s ↔
  s ≠ ""
  ∧ ∃ props pluginProps,
      settings = JObj props
      ∧ lookupProp "@jespers/css-modules" props = JObj pluginProps
      ∧ lookupProp "basePath" pluginProps = JStr s.
Proof.
  unfold getBasePathSetting. split.
  - destruct settings as [| | | | |props]; simpl; try done.
    destruct (lookupProp "@jespers/css-modules" props) as [| | | | |pp] eqn:E1;
      simpl; try done.
    destruct (lookupProp "basePath" pp) as [| | | |b|] eqn:E2; try done.
    destruct (String.eqb b "") eqn:Eb; [done|]. intros [= <-].
    apply String.eqb_neq in Eb. eauto 10.
  - intros (Hs & props & pp & -> & E1 & E2). simpl. rewrite E1. simpl.
    rewrite E2. apply String.eqb_neq in Hs. by rewrite Hs.
Qed.

Lemma lastChar_payload (l : list string) :
  l ≠ [] → lastChar (getFixPayloadClassNames l) = Some "'"%char.
Proof.
  intros Hne. unfold getFixPayloadClassNames. apply lastChar_join.
  - by destruct l.
  - intros x Hx. apply list_elem_of_fmap in Hx as (y & -> & _).
    apply lastChar_quote.
Qed.

(** X4. The summary of the diagnostic is the payload of its fix exactly
    when there are at most three unused names: from four names on the
    summary is cut and the two texts differ. *)
Theorem summary_is_payload_iff_at_most_three (unused : list string) :
  getPrettyUnusedClassNames unused = getFixPayloadClassNames unused
  ↔ (length unused ≤ 3)%nat.
Proof.
  unfold getPrettyUnusedClassNames.
  destruct (length unused <=? 3)%nat eqn:E.
  - apply Nat.leb_le in E. split; [done|]. intros _.
    unfold getFixPayloadClassNames. by rewrite take_ge.
  - apply Nat.leb_gt in E. split; [|lia]. intros H. exfalso.
    assert (unused ≠ []) as Hne by (destruct unused; [simpl in E; lia|done]).
    pose proof (lastChar_payload unused Hne) as Hl. rewrite <- H in Hl.
    rewrite lastChar_app in Hl.
    + change (lastChar (moreSuffix (0 `max` (Z.of_nat (length unused) - 3)))
              = Some "'"%char) in Hl.
      by rewrite lastChar_moreSuffix in Hl.
    + change (moreSuffix (0 `max` (Z.of_nat (length unused) - 3)) ≠ "").
      eapply lastChar_Some_nonempty, lastChar_moreSuffix.
Qed.

(** X5. A name listed in [markAsUsed] is never among the unused names.
    When the rule runs again with [markAsUsed] set to the names it found
    unused, as the suggested fix writes it, the names found unused then are
    the available, not used names that the earlier [markAsUsed] covered;
    so after a run without [markAsUsed] the fixed run reports nothing. *)
Theorem marked_names_are_not_reported
    (file : FileEntry) (names marks : list string) :
  (∀ c, c ∈ names →
        c ∉ unusedClassNames file
              (getMarkAsUsedOption [ {| markAsUsed := Some names |} ]))
  ∧ (∀ c, c ∈ unusedClassNames file
                (getMarkAsUsedOption
                   [ {| markAsUsed := Some (unusedClassNames file marks) |} ])
          ↔ c ∈ availableClassNames file
            ∧ (c ∉ usedClassNames file)
            ∧ c ∈ marks)
  ∧ reportFile
      (getMarkAsUsedOption
         [ {| markAsUsed := Some (unusedClassNames file []) |} ]) file
    = None.
Proof.
  assert (∀ l c, c ∈ getMarkAsUsedOption [ {| markAsUsed := Some l |} ] ↔ c ∈ l)
    as Hmark.
  { intros l c. simpl. rewrite JSSet_elem_of_addAll. unfold JSSet.empty.
    rewrite elem_of_nil. tauto. }
  assert (∀ c, c ∈ unusedClassNames file
                 (getMarkAsUsedOption
                    [ {| markAsUsed := Some (unusedClassNames file marks) |} ])
          ↔ c ∈ availableClassNames file
            ∧ (c ∉ usedClassNames file)
            ∧ c ∈ marks) as Hfix.
  { intros c. rewrite elem_of_unusedClassNames, Hmark, elem_of_unusedClassNames.
    destruct (decide (c ∈ marks)); tauto. }
  split_and!.
  - intros c Hc Hu. apply elem_of_unusedClassNames in Hu as (_ & _ & Hm).
    apply Hm, Hmark, Hc.
  - exact Hfix.
  - destruct (reportFile _ file) as [r|] eqn:Er; [|done].
    apply reportFile_Some in Er as [Hu _].
    destruct (unusedClassNames file
                (getMarkAsUsedOption
                   [ {| markAsUsed := Some (unusedClassNames file []) |} ]))
      as [|c l] eqn:E; [done|].
    assert (c ∈ c :: l) as Hc by apply list_elem_of_here.
    rewrite <- E in Hc.
    assert (c ∈ availableClassNames file ∧ (c ∉ usedClassNames file) ∧ c ∈ [])
      as (_ & _ & Hn).
    { revert Hc. clear.
      rewrite !elem_of_unusedClassNames. simpl.
      rewrite JSSet_elem_of_addAll, elem_of_unusedClassNames.
      unfold JSSet.empty. rewrite !elem_of_nil. tauto. }
    by apply elem_of_nil in Hn.
Qed.

(** ** Recognition, again *)

Lemma isLineTerminator_canonicalize c :
  RegExp.isLineTerminator (RegExp.canonicalize c) = RegExp.isLineTerminator c.
Proof.
  unfold RegExp.canonicalize.
  destruct ((97 <=? nat_of_ascii c) && (nat_of_ascii c <=? 122))%nat eqn:E;
    [|done].
  apply andb_true_iff in E as [E1 E2].
  apply Nat.leb_le in E1. apply Nat.leb_le in E2.
  unfold RegExp.isLineTerminator.
  rewrite nat_ascii_embedding by lia.
  repeat match goal with
         | |- context [(?a =? ?b)%nat] =>
             let H := fresh in
             destruct (a =? b)%nat eqn:H; [apply Nat.eqb_eq in H; lia|]
         end.
  done.
Qed.

Lemma isLineTerminator_same_canonical c c' :
  RegExp.canonicalize c = RegExp.canonicalize c' →
  RegExp.isLineTerminator c = RegExp.isLineTerminator c'.
Proof.
  intros H.
  by rewrite <- (isLineTerminator_canonicalize c), H,
             isLineTerminator_canonicalize.
Qed.

Lemma isCssFile_same_canonical s t :
  RegExp.canonicalizeString s = RegExp.canonicalizeString t →
  isCssFile s = true → isCssFile t = true.
Proof.
  intros Hst Hs. apply isCssFile_true in Hs as (front & c & suffix & -> & Hc & Hsuf).
  symmetry in Hst. apply canonicalizeString_split in Hst as (y & z & -> & _ & Hz).
  destruct z as [|c' z]; [done|]. simpl in Hz. injection Hz as Hcc Hz.
  apply isCssFile_true. exists y, c', z. split_and!; [done| |].
  - by rewrite (isLineTerminator_same_canonical c' c).
  - by rewrite Hz.
Qed.

(** X6. Recognition ignores the case of ASCII letters in the whole
    specifier: two specifiers that differ only in the case of such letters
    are both recognized or both not. *)
Theorem isCssFile_ignores_case (s t : string) :
  RegExp.canonicalizeString s = RegExp.canonicalizeString t →
  isCssFile s = isCssFile t.
Proof.
  intros H. destruct (isCssFile s) eqn:Es, (isCssFile t) eqn:Et; try done.
  - by rewrite (isCssFile_same_canonical s t H Es) in Et.
  - by rewrite (isCssFile_same_canonical t s (eq_sym H) Et) in Es.
Qed.

(** X7. Recognition looks at the end of the specifier only: a recognized
    specifier stays recognized with any text put in front of it, and it has
    at least twelve characters (one character and the shorter suffix). *)
Theorem isCssFile_depends_on_the_end (s : string) :
  isCssFile s = true →
  (∀ front, isCssFile (front +:+ s) = true) ∧ (12 ≤ String.length s)%nat.
Proof.
  intros Hs. apply isCssFile_true in Hs as (f & c & suffix & -> & Hc & Hsuf).
  split.
  - intros front. apply isCssFile_true. exists (front +:+ f), c, suffix.
    split_and!; [by rewrite append_assoc|done|done].
  - rewrite length_append. simpl.
    assert (11 ≤ String.length suffix)%nat; [|lia].
    rewrite <- length_canonicalizeString.
    destruct Hsuf as [-> | ->]; simpl; lia.
Qed.

(** ** The handlers, again *)

Lemma withAvailable_same file : withAvailable file (availableClassNames file) = file.
Proof. by destruct file. Qed.

Lemma withUsed_same file : withUsed file (usedClassNames file) = file.
Proof. by destruct file. Qed.

Lemma JSSet_add_absorb s x : x ∈ s → JSSet.add s x = s.
Proof. intros H. unfold JSSet.add. by rewrite (proj2 (JSSet_has_true s x) H). Qed.

(** X8. Visiting the same property access a second time changes nothing:
    the name is already among the used names of the record. *)
Theorem MemberExpression_idempotent
    (context : RuleContext) (node : MemberExpressionNode)
    (files : gmap string FileEntry) :
  MemberExpression context node (MemberExpression context node files)
  = MemberExpression context node files.
Proof.
  apply map_eq. intros key.
  rewrite (MemberExpression_lookup context node (MemberExpression _ _ _)).
  destruct (getPropertyName node) as [p|] eqn:Ep; [|done].
  destruct (String.eqb p "") eqn:Ee; [done|].
  case_decide as Hk; [|done]. subst key.
  rewrite !MemberExpression_lookup, Ep, Ee.
  case_decide; [|done]. f_equal.
  destruct (files !! getFilename context) as [file|]; simpl.
  - unfold withUsed at 1. simpl. rewrite JSSet_add_absorb; [done|].
    apply JSSet_elem_of_add. by right.
  - unfold withUsed. simpl.
    rewrite (JSSet_add_absorb (JSSet.add JSSet.empty p) p); [done|].
    apply JSSet_elem_of_add. by right.
Qed.

(** X9. Importing the same stylesheet a second time changes nothing once
    the first import has gone through: every class name it yields is already
    available, and the anchor stays. *)
Theorem ImportDeclaration_idempotent
    (host : Host) (context : RuleContext) (node : ImportDeclarationNode)
    (files files' : gmap string FileEntry) :
  ImportDeclaration host context node files = Some files' →
  ImportDeclaration host context node files' = Some files'.
Proof.
  intros Hi.
  destruct (importedClassNames host context node) as [names|] eqn:En;
    [|apply (ImportDeclaration_None _ _ _ files) in En; congruence].
  destruct (decide (names = [])) as [->|Hne].
  { by apply ImportDeclaration_nothing. }
  destruct (ImportDeclaration_lookup host context node files _ En Hne)
    as (files1 & Hi1 & Hl1).
  rewrite Hi in Hi1. injection Hi1 as <-.
  destruct (ImportDeclaration_lookup host context node files' _ En Hne)
    as (files2 & Hi2 & Hl2).
  rewrite Hi2. f_equal. apply map_eq. intros key.
  rewrite Hl2. case_decide as Hk; [|done]. subst key.
  rewrite Hl1. case_decide; [|done]. f_equal.
  destruct (files !! getFilename context) as [file|]; simpl.
  - unfold withAvailable at 1. simpl. rewrite JSSet_addAll_absorb; [done|].
    intros x Hx. apply JSSet_elem_of_addAll. by right.
  - unfold withAvailable. simpl. rewrite JSSet_addAll_absorb; [done|].
    intros x Hx. apply JSSet_elem_of_addAll. by right.
Qed.

Lemma visit_appends_only host context e files files' key file :
  visit host context e files = Some files' →
  files !! key = Some file →
  ∃ file',
    files' !! key = Some file'
    ∧ availableClassNames file `prefix_of` availableClassNames file'
    ∧ usedClassNames file `prefix_of` usedClassNames file'.
Proof.
  intros Hv Hf. destruct e as [node|node]; simpl in Hv.
  - destruct (importedClassNames host context node) as [names|] eqn:En;
      [|apply (ImportDeclaration_None _ _ _ files) in En; congruence].
    destruct (decide (names = [])) as [->|Hne].
    { rewrite (ImportDeclaration_nothing _ _ _ _ En) in Hv.
      injection Hv as <-. eauto. }
    destruct (ImportDeclaration_lookup host context node files _ En Hne)
      as (files'' & Hi' & Hl).
    rewrite Hv in Hi'. injection Hi' as <-.
    rewrite Hl. case_decide as Hkey; [|eauto]. subst key. rewrite Hf.
    eexists. split; [done|]. simpl. split; [apply JSSet_addAll_prefix|done].
  - injection Hv as <-. rewrite MemberExpression_lookup.
    destruct (getPropertyName node) as [p|]; [|eauto].
    destruct (String.eqb p ""); [eauto|].
    case_decide as Hkey; [|eauto]. subst key. rewrite Hf.
    eexists. split; [done|]. simpl. split; [done|apply JSSet_add_prefix].
Qed.

(** X10. A record only grows during a pass: a record that is there
    stays, its available and its used names after the pass start with the
    names it had, in the same order, and its anchor, set or not, is the one
    it had. *)
Theorem traverse_appends_only
    (host : Host) (context : RuleContext) (events : list Event) :
  ∀ files files' key file,
    traverse host context events files = Some files' →
    files !! key = Some file →
    ∃ file',
      files' !! key = Some file'
      ∧ availableClassNames file `prefix_of` availableClassNames file'
      ∧ usedClassNames file `prefix_of` usedClassNames file'
      ∧ meta file' = meta file.
Proof.
  induction events as [|e events IH]; intros files files' key file Ht Hf.
  - injection Ht as <-. eauto.
  - simpl in Ht.
    destruct (visit host context e files) as [files1|] eqn:Hv; [|done].
    simpl in Ht.
    destruct (visit_appends_only _ _ _ _ _ _ _ Hv Hf) as (file1 & Hf1 & Ha1 & Hu1).
    destruct (visit_keeps_meta _ _ _ _ _ _ _ Hv Hf) as (file1' & Hf1' & Hm1).
    rewrite Hf1 in Hf1'. injection Hf1' as <-.
    destruct (IH _ _ _ _ Ht Hf1) as (file' & Hf' & Ha' & Hu' & Hm').
    exists file'. split; [done|]. split_and!; [by etrans|by etrans|congruence].
Qed.

(** ** A whole pass *)

Lemma contribution_available host context e a u c :
  contribution host context e = Some (a, u) → c ∈ a →
  ∃ node ast,
    e = VisitImportDeclaration node
    ∧ isCssFile (source_value node) = true
    ∧ fileExists host (stylesheetPath host context node) = true
    ∧ parseCssFileAst host (stylesheetPath host context node) = Some ast
    ∧ c ∈ walkClassSelectors ast.
Proof.
  destruct e as [node|node]; simpl.
  - destruct (importedClassNames host context node) as [names|] eqn:En; [|done].
    simpl. intros [= <- <-] Hc.
    apply importedClassNames_Some in En as (H1 & H2 & ast & H3 & ->).
    + exists node, ast. split_and!; try done.
      by apply elem_of_getCssFileClassNames.
    + intros ->. by apply elem_of_nil in Hc.
  - intros [= <- <-] Hc. by apply elem_of_nil in Hc.
Qed.

Lemma contribution_of_import host context node ast :
  isCssFile (source_value node) = true →
  fileExists host (stylesheetPath host context node) = true →
  parseCssFileAst host (stylesheetPath host context node) = Some ast →
  importedClassNames host context node = Some (getCssFileClassNames ast)
  ∧ contribution host context (VisitImportDeclaration node)
    = Some (getCssFileClassNames ast, []).
Proof.
  intros H1 H2 H3. unfold contribution, importedClassNames.
  by rewrite H1, H2, H3.
Qed.

Lemma contribution_used host context e a u c :
  contribution host context e = Some (a, u) → c ∈ u →
  c ≠ "" ∧ e = VisitMemberExpression {| getPropertyName := Some c |}.
Proof.
  destruct e as [node|node]; simpl.
  - destruct (importedClassNames host context node); [|done].
    simpl. intros [= <- <-] Hc. by apply elem_of_nil in Hc.
  - intros [= <- <-]. destruct node as [[p|]]; simpl.
    + destruct (String.eqb p "") eqn:Ep; [by rewrite elem_of_nil|].
      rewrite list_elem_of_singleton. intros ->.
      by apply String.eqb_neq in Ep.
    + by rewrite elem_of_nil.
Qed.

Lemma contribution_of_access host context c :
  c ≠ "" →
  contribution host context (VisitMemberExpression {| getPropertyName := Some c |})
  = Some ([], [c]).
Proof. intros Hc. simpl. apply String.eqb_neq in Hc. by rewrite Hc. Qed.

(** X11. After a pass that started without records, only the file of the
    context has a record. Its available names are the class selectors of
    the stylesheets of the imports of the pass that are stylesheet modules,
    exist and parse; its used names are the non-empty property names of the
    accesses of the pass; and the record exists exactly when it holds an
    available or a used name. *)
Theorem final_sets_are_unions
    (host : Host) (context : RuleContext) (events : list Event)
    (files : gmap string FileEntry) :
  traverse host context events ∅ = Some files →
  (∀ key, key ≠ getFilename context → files !! key = None)
  ∧ (∀ c, c ∈ availableAt files (getFilename context) ↔
          ∃ node ast,
            VisitImportDeclaration node ∈ events
            ∧ isCssFile (source_value node) = true
            ∧ fileExists host (stylesheetPath host context node) = true
            ∧ parseCssFileAst host (stylesheetPath host context node) = Some ast
            ∧ c ∈ walkClassSelectors ast)
  ∧ (∀ c, c ∈ usedAt files (getFilename context) ↔
          c ≠ ""
          ∧ VisitMemberExpression {| getPropertyName := Some c |} ∈ events)
  ∧ (is_Some (files !! getFilename context) ↔
     (∃ c, c ∈ availableAt files (getFilename context))
     ∨ (∃ c, c ∈ usedAt files (getFilename context))).
Proof.
  intros Ht. destruct (traverse_Some _ _ _ _ _ Ht) as (Ho & Hs & Ha & Hu).
  assert (∀ c, c ∈ availableAt files (getFilename context) ↔
            ∃ e a u, e ∈ events ∧ contribution host context e = Some (a, u)
                     ∧ c ∈ a) as Ha'.
  { intros c. rewrite Ha. unfold availableAt. rewrite lookup_empty. simpl.
    rewrite elem_of_nil. tauto. }
  assert (∀ c, c ∈ usedAt files (getFilename context) ↔
            ∃ e a u, e ∈ events ∧ contribution host context e = Some (a, u)
                     ∧ c ∈ u) as Hu'.
  { intros c. rewrite Hu. unfold usedAt. rewrite lookup_empty. simpl.
    rewrite elem_of_nil. tauto. }
  split_and!.
  - intros key Hk. by rewrite Ho, lookup_empty.
  - intros c. rewrite Ha'. split.
    + intros (e & a & u & He & Hc & Hin).
      destruct (contribution_available _ _ _ _ _ _ Hc Hin)
        as (node & ast & -> & ?). exists node, ast. by split.
    + intros (node & ast & He & H1 & H2 & H3 & Hc).
      destruct (contribution_of_import host context node ast H1 H2 H3) as [_ Hcon].
      eexists _, _, _. split_and!; [done|done|].
      by apply elem_of_getCssFileClassNames.
  - intros c. rewrite Hu'. split.
    + intros (e & a & u & He & Hc & Hin).
      destruct (contribution_used _ _ _ _ _ _ Hc Hin) as [Hne ->]. done.
    + intros [Hne He]. eexists _, _, _.
      split_and!; [done|by apply contribution_of_access|apply list_elem_of_here].
  - rewrite Hs, lookup_empty. split.
    + intros [[? [=]]|(e & a & u & He & Hc & [Hn|Hn])].
      * left. destruct a as [|c a]; [done|]. exists c. apply Ha'.
        exists e, (c :: a), u. split_and!; [done|done|apply list_elem_of_here].
      * right. destruct u as [|c u]; [done|]. exists c. apply Hu'.
        exists e, a, (c :: u). split_and!; [done|done|apply list_elem_of_here].
    + intros [[c Hc]|[c Hc]]; right.
      * apply Ha' in Hc as (e & a & u & He & Hc & Hin). exists e, a, u.
        split_and!; [done|done|]. left. intros ->. by apply elem_of_nil in Hin.
      * apply Hu' in Hc as (e & a & u & He & Hc & Hin). exists e, a, u.
        split_and!; [done|done|]. right. intros ->. by apply elem_of_nil in Hin.
Qed.

(** X12. A pass throws exactly when one of its imports is a stylesheet
    module whose path exists and whose stylesheet cannot be read or parsed,
    whatever the records are and wherever the import stands. *)
Theorem traverse_throws_iff_a_stylesheet_fails
    (host : Host) (context : RuleContext) (events : list Event)
    (files : gmap string FileEntry) :
  traverse host context events files = None ↔
  ∃ node,
    VisitImportDeclaration node ∈ events
    ∧ isCssFile (source_value node) = true
    ∧ fileExists host (stylesheetPath host context node) = true
    ∧ parseCssFileAst host (stylesheetPath host context node) = None.
Proof.
  rewrite traverse_None. split.
  - intros (e & He & Hc). destruct e as [node|node]; [|done].
    exists node. split; [done|]. simpl in Hc. unfold importedClassNames in Hc.
    destruct (isCssFile (source_value node)); [|done].
    destruct (fileExists host (stylesheetPath host context node)); [|done].
    by destruct (parseCssFileAst host (stylesheetPath host context node)).
  - intros (node & He & H1 & H2 & H3). exists (VisitImportDeclaration node).
    split; [done|]. simpl. unfold importedClassNames. by rewrite H1, H2, H3.
Qed.

Lemma files_of_one_key (files : gmap string FileEntry) k :
  (∀ key, key ≠ k → files !! key = None) →
  files = match files !! k with
          | Some file => {[ k := file ]}
          | None => ∅
          end.
Proof.
  intros Ho. apply map_eq. intros key.
  destruct (decide (key = k)) as [->|Hk].
  - destruct (files !! k) as [file|] eqn:E.
    + by rewrite lookup_singleton_eq.
    + by rewrite lookup_empty.
  - rewrite (Ho key Hk). destruct (files !! k).
    + by rewrite lookup_singleton_ne.
    + by rewrite lookup_empty.
Qed.

Lemma Program_exit_one_key context (files : gmap string FileEntry) k :
  (∀ key, key ≠ k → files !! key = None) →
  Program_exit context files
  = match files !! k with
    | Some file =>
        option_list (reportFile (getMarkAsUsedOption (options context)) file)
    | None => []
    end.
Proof.
  intros Ho. rewrite (files_of_one_key files k Ho) at 1.
  unfold Program_exit. destruct (files !! k) as [file|].
  - rewrite map_size_singleton, map_to_list_singleton. simpl.
    by destruct (reportFile _ file).
  - by rewrite map_to_list_empty.
Qed.

(** X13. A pass gives at most one diagnostic: there is one record at
    most, that of the file of the context, and a record gives one report at
    most. *)
Theorem lint_reports_at_most_once
    (host : Host) (context : RuleContext) (events : list Event)
    (reports : list Report) :
  lint host context events = Some reports → (length reports ≤ 1)%nat.
Proof.
  unfold lint.
  destruct (traverse host context events ∅) as [files|] eqn:Ht; [|done].
  simpl. intros [= <-].
  destruct (traverse_Some _ _ _ _ _ Ht) as (Ho & _).
  rewrite (Program_exit_one_key context files (getFilename context)).
  - destruct (files !! getFilename context) as [file|]; [|simpl; lia].
    destruct (reportFile _ file); simpl; lia.
  - intros key Hk. by rewrite Ho, lookup_empty.
Qed.

Lemma anchoredAt_mono host context (seen seen' : list Event) m :
  (∀ e, e ∈ seen → e ∈ seen') →
  anchoredAt host context seen m → anchoredAt host context seen' m.
Proof.
  intros Hsub (node & names & Hin & Hn & Hne & ->).
  exists node, names. split_and!; [by apply Hsub|done..].
Qed.

Lemma visit_anchors host context e files files' (seen : list Event) :
  visit host context e files = Some files' →
  (∀ key file m, files !! key = Some file → meta file = Some m →
                 anchoredAt host context seen m) →
  ∀ key file m, files' !! key = Some file → meta file = Some m →
                anchoredAt host context (e :: seen) m.
Proof.
  intros Hv Hold key file' m Hk Hm.
  assert (∀ m', anchoredAt host context seen m' →
                anchoredAt host context (e :: seen) m') as Hmono.
  { intros m'. apply anchoredAt_mono. intros e' He'.
    by apply list_elem_of_further. }
  destruct e as [node|node]; simpl in Hv.
  - destruct (importedClassNames host context node) as [names|] eqn:En;
      [|apply (ImportDeclaration_None _ _ _ files) in En; congruence].
    destruct (decide (names = [])) as [->|Hne].
    { rewrite (ImportDeclaration_nothing _ _ _ _ En) in Hv.
      injection Hv as <-. eauto. }
    destruct (ImportDeclaration_lookup host context node files _ En Hne)
      as (files'' & Hi' & Hl).
    rewrite Hv in Hi'. injection Hi' as <-. rewrite Hl in Hk.
    case_decide as Hkey; [|eauto]. subst key.
    destruct (files !! getFilename context) as [file|] eqn:Ef;
      injection Hk as <-; simpl in Hm.
    + eauto.
    + injection Hm as <-. exists node, names.
      split_and!; [apply list_elem_of_here|done..].
  - injection Hv as <-. rewrite MemberExpression_lookup in Hk.
    destruct (getPropertyName node) as [p|]; [|eauto].
    destruct (String.eqb p ""); [eauto|].
    case_decide as Hkey; [|eauto]. subst key.
    destruct (files !! getFilename context) as [file|] eqn:Ef;
      injection Hk as <-; simpl in Hm; [eauto|done].
Qed.

Lemma traverse_anchors host context events : ∀ files files' (seen : list Event),
  traverse host context events files = Some files' →
  (∀ key file m, files !! key = Some file → meta file = Some m →
                 anchoredAt host context seen m) →
  ∀ key file m, files' !! key = Some file → meta file = Some m →
                anchoredAt host context (seen ++ events) m.
Proof.
  induction events as [|e events IH]; intros files files' seen Ht Hold.
  - injection Ht as <-. by rewrite app_nil_r.
  - simpl in Ht.
    destruct (visit host context e files) as [files1|] eqn:Hv; [|done].
    simpl in Ht. intros key file m Hk Hm.
    replace (seen ++ e :: events)%list with ((seen ++ [e]) ++ events)%list
      by (by rewrite <- app_assoc).
    refine (IH files1 files' (seen ++ [e])%list Ht _ key file m Hk Hm).
    intros key1 file1 m1 Hk1 Hm1.
    apply (anchoredAt_mono host context (e :: seen)).
    + intros e'. rewrite elem_of_cons, elem_of_app, list_elem_of_singleton. tauto.
    + exact (visit_anchors host context e files files1 seen Hv Hold
               key1 file1 m1 Hk1 Hm1).
Qed.

(** X14. Every diagnostic of a pass is located at an import of that pass
    which is a stylesheet module whose path exists and whose stylesheet
    parses and declares a class selector, and the path the message shows is
    the path resolved for that import. *)
Theorem reports_are_anchored_at_an_import
    (host : Host) (context : RuleContext) (events : list Event)
    (reports : list Report) (r : Report) :
  lint host context events = Some reports →
  r ∈ reports →
  VisitImportDeclaration (report_node r) ∈ events
  ∧ report_cssFilePath r = stylesheetPath host context (report_node r)
  ∧ isCssFile (source_value (report_node r)) = true
  ∧ fileExists host (report_cssFilePath r) = true
  ∧ ∃ ast, parseCssFileAst host (report_cssFilePath r) = Some ast
           ∧ walkClassSelectors ast ≠ [].
Proof.
  unfold lint.
  destruct (traverse host context events ∅) as [files|] eqn:Ht; [|done].
  simpl. intros [= <-] Hr.
  apply elem_of_Program_exit in Hr as (key & file & Hf & Hr).
  apply reportFile_Some in Hr as (_ & m & Hm & _ & Hnode & Hpath & _).
  assert (anchoredAt host context ([] ++ events)%list m)
    as (node & names & Hin & Hn & Hne & ->).
  { refine (traverse_anchors host context events ∅ files [] Ht _ key file m Hf Hm).
    intros key0 file0 m0 H0. by rewrite lookup_empty in H0. }
  simpl in Hnode, Hpath. rewrite Hnode, Hpath.
  apply importedClassNames_Some in Hn as (H1 & H2 & ast & H3 & ->); [|done].
  split_and!; [done..|]. exists ast. split; [done|].
  intros Hw. by apply getCssFileClassNames_nil in Hw.
Qed.

Lemma reportFile_is_Some mark file m :
  unusedClassNames file mark ≠ [] → meta file = Some m → cssFilePath m ≠ "" →
  ∃ r, reportFile mark file = Some r
       ∧ report_node r = importNode m
       ∧ report_cssFilePath r = cssFilePath m
       ∧ report_classNames r
         = getPrettyUnusedClassNames (unusedClassNames file mark).
Proof.
  intros Hu Hm Hp. unfold reportFile.
  destruct (unusedClassNames file mark) as [|c l] eqn:E; [done|]. simpl.
  rewrite Hm. destruct m as [n p]. simpl in *.
  apply String.eqb_neq in Hp. rewrite Hp. eauto.
Qed.

Lemma first_import_reported_unless_thrown
    (host : Host) (context : RuleContext) (node : ImportDeclarationNode)
    (rest : list Event) (reports : list Report) (ast : CssNode) (c : string) :
  lint host context (VisitImportDeclaration node :: rest) = Some reports →
  isCssFile (source_value node) = true →
  fileExists host (stylesheetPath host context node) = true →
  parseCssFileAst host (stylesheetPath host context node) = Some ast →
  stylesheetPath host context node ≠ "" →
  c ∈ walkClassSelectors ast →
  VisitMemberExpression {| getPropertyName := Some c |} ∉ rest →
  c ∉ getMarkAsUsedOption (options context) →
  ∃ r, reports = [r]
       ∧ report_node r = node
       ∧ report_cssFilePath r = stylesheetPath host context node.
Proof.
  intros Hl H1 H2 H3 Hpath Hc Hacc Hmark. unfold lint in Hl.
  destruct (traverse host context (VisitImportDeclaration node :: rest) ∅)
    as [files|] eqn:Ht; [|done].
  simpl in Hl. injection Hl as <-.
  destruct (contribution_of_import host context node ast H1 H2 H3) as [Hn Hcon].
  assert (getCssFileClassNames ast ≠ []) as Hne.
  { intros E. apply elem_of_getCssFileClassNames in Hc. rewrite E in Hc.
    by apply elem_of_nil in Hc. }
  destruct (traverse_Some _ _ _ _ _ Ht) as (Ho & _ & Ha & Hu).
  simpl in Ht.
  destruct (ImportDeclaration_sets_meta host context node ∅ _ Hn Hne)
    as (files1 & file1 & Hi & Hf1 & Hm1); [apply lookup_empty|].
  rewrite Hi in Ht. simpl in Ht.
  destruct (traverse_keeps_meta _ _ _ _ _ _ _ Ht Hf1) as (file & Hf & Hm).
  rewrite Hm1 in Hm.
  assert (c ∈ availableClassNames file) as Hav.
  { assert (c ∈ availableAt files (getFilename context)) as Hin.
    - apply Ha. right. eexists _, _, _.
      split_and!; [apply list_elem_of_here|exact Hcon|].
      by apply elem_of_getCssFileClassNames.
    - unfold availableAt in Hin. by rewrite Hf in Hin. }
  rewrite (Program_exit_one_key context files (getFilename context)), Hf.
  2:{ intros key Hk. by rewrite Ho, lookup_empty. }
  destruct (reportFile_is_Some (getMarkAsUsedOption (options context)) file
              {| importNode := node;
                 cssFilePath := stylesheetPath host context node |})
    as (r & Hr & Hnode & Hp & _); [|done|done|].
  - intros E.
    assert (c ∈ unusedClassNames file (getMarkAsUsedOption (options context)))
      as Hin; [|rewrite E in Hin; by apply elem_of_nil in Hin].
    apply elem_of_unusedClassNames. split_and!; [done| |done].
    intros Hused.
    assert (c ∈ usedAt files (getFilename context)) as Hused'
      by (unfold usedAt; by rewrite Hf).
    apply Hu in Hused' as [Hused'|(e & a & u & He & Hce & Hin)].
    + unfold usedAt in Hused'. rewrite lookup_empty in Hused'.
      by apply elem_of_nil in Hused'.
    + destruct (contribution_used _ _ _ _ _ _ Hce Hin) as [_ ->].
      apply elem_of_cons in He as [He|He]; [done|]. by apply Hacc.
  - rewrite Hr. exists r. by split.
Qed.

(** X15. When the first event of a pass is an import whose stylesheet
    yields class names, one of these names is neither accessed later in the
    pass nor marked as used, and the resolved path is not empty (as it never
    is for a resolved path), the pass ends in one of two ways: it throws,
    because a later import is a stylesheet module whose path exists and
    whose stylesheet cannot be read or parsed; or it gives exactly one
    diagnostic, at the first import and with its resolved path. *)
Theorem first_import_with_unused_class_is_reported
    (host : Host) (context : RuleContext) (node : ImportDeclarationNode)
    (rest : list Event) (ast : CssNode) (c : string) :
  isCssFile (source_value node) = true →
  fileExists host (stylesheetPath host context node) = true →
  parseCssFileAst host (stylesheetPath host context node) = Some ast →
  stylesheetPath host context node ≠ "" →
  c ∈ walkClassSelectors ast →
  VisitMemberExpression {| getPropertyName := Some c |} ∉ rest →
  c ∉ getMarkAsUsedOption (options context) →
  (lint host context (VisitImportDeclaration node :: rest) = None
   ∧ ∃ node',
       VisitImportDeclaration node' ∈ rest
       ∧ isCssFile (source_value node') = true
       ∧ fileExists host (stylesheetPath host context node') = true
       ∧ parseCssFileAst host (stylesheetPath host context node') = None)
  ∨ (∃ r,
       lint host context (VisitImportDeclaration node :: rest) = Some [r]
       ∧ report_node r = node
       ∧ report_cssFilePath r = stylesheetPath host context node
       ∧ (∀ node',
            VisitImportDeclaration node' ∈ rest →
            isCssFile (source_value node') = true →
            fileExists host (stylesheetPath host context node') = true →
            is_Some (parseCssFileAst host (stylesheetPath host context node')))).
Proof.
  intros H1 H2 H3 Hpath Hc Hacc Hmark.
  destruct (lint host context (VisitImportDeclaration node :: rest))
    as [reports|] eqn:Hl.
  - right.
    destruct (first_import_reported_unless_thrown host context node rest reports
                ast c Hl H1 H2 H3 Hpath Hc Hacc Hmark) as (r & -> & Hn & Hp).
    exists r. split_and!; [done..|].
    intros node' Hin Hcss Hex.
    destruct (parseCssFileAst host (stylesheetPath host context node'))
      as [ast'|] eqn:Hparse; [by eexists|]. exfalso.
    unfold lint in Hl.
    destruct (traverse host context (VisitImportDeclaration node :: rest) ∅)
      as [files|] eqn:Ht; [|done].
    assert (traverse host context (VisitImportDeclaration node :: rest) ∅ = None)
      as Hnone; [|congruence].
    apply traverse_None. exists (VisitImportDeclaration node').
    split; [by apply list_elem_of_further|].
    simpl. unfold importedClassNames. by rewrite Hcss, Hex, Hparse.
  - left. split; [done|]. unfold lint in Hl.
    destruct (traverse host context (VisitImportDeclaration node :: rest) ∅)
      as [files|] eqn:Ht; [done|].
    apply traverse_None in Ht as (e & He & Hcon).
    apply elem_of_cons in He as [->|He].
    { destruct (contribution_of_import host context node ast H1 H2 H3) as [_ E].
      congruence. }
    destruct e as [node'|node']; [|done].
    exists node'. split; [done|]. simpl in Hcon. unfold importedClassNames in Hcon.
    destruct (isCssFile (source_value node')); [|done].
    destruct (fileExists host (stylesheetPath host context node')); [|done].
    by destruct (parseCssFileAst host (stylesheetPath host context node')).
Qed.

(** X16. No class name is reported twice: after a pass that started
    without records the unused names of a record are pairwise distinct,
    however often stylesheets declare a class or the file imports them. *)
Theorem unused_names_are_distinct
    (host : Host) (context : RuleContext) (events : list Event)
    (files : gmap string FileEntry) (key : string) (file : FileEntry)
    (markAsUsedClassNames : list string) :
  traverse host context events ∅ = Some files →
  files !! key = Some file →
  NoDup (unusedClassNames file markAsUsedClassNames).
Proof.
  intros Ht Hf.
  destruct (traverse_wellFormed _ _ _ _ _ wellFormed_empty Ht _ _ Hf) as [Ha _].
  unfold unusedClassNames, JSSet.values. by apply NoDup_filter.
Qed.

(** X17. A property access leaves the records as they are exactly when
    its name cannot be determined, is empty, or is already among the used
    names of the record of the file. *)
Theorem MemberExpression_changes_nothing_iff
    (context : RuleContext) (node : MemberExpressionNode)
    (files : gmap string FileEntry) :
  MemberExpression context node files = files ↔
  getPropertyName node = None
  ∨ getPropertyName node = Some ""
  ∨ ∃ propertyName file,
      getPropertyName node = Some propertyName
      ∧ files !! getFilename context = Some file
      ∧ propertyName ∈ usedClassNames file.
Proof.
  split.
  - intros H.
    assert (MemberExpression context node files !! getFilename context
            = files !! getFilename context) as Hk by (by rewrite H).
    rewrite MemberExpression_lookup in Hk.
    destruct (getPropertyName node) as [p|]; [|by left]. right.
    destruct (String.eqb p "") eqn:Ep; [left; by apply String.eqb_eq in Ep as ->|].
    right. case_decide; [|done].
    destruct (files !! getFilename context) as [file|]; [|done].
    exists p, file. split_and!; [done..|].
    injection Hk as Hk.
    assert (usedClassNames (withUsed file (JSSet.add (usedClassNames file) p))
            = usedClassNames file) as Hu by (by rewrite Hk).
    simpl in Hu. rewrite <- Hu. apply JSSet_elem_of_add. by right.
  - intros H. apply map_eq. intros key. rewrite MemberExpression_lookup.
    destruct H as [->|[->|(p & file & -> & Hf & Hp)]]; [done|done|].
    destruct (String.eqb p ""); [done|]. case_decide as Hk; [|done]. subst key.
    rewrite Hf. f_equal. rewrite JSSet_add_absorb by done. apply withUsed_same.
Qed.

(** X18. An import that does not throw leaves the records as they are
    exactly when it yields no class name (it is no stylesheet module, its
    path does not exist, or its stylesheet declares no class) or every class
    name it yields is already available in the record of the file. *)
Theorem ImportDeclaration_changes_nothing_iff
    (host : Host) (context : RuleContext) (node : ImportDeclarationNode)
    (files : gmap string FileEntry) :
  ImportDeclaration host context node files = Some files ↔
  ∃ names,
    importedClassNames host context node = Some names
    ∧ (names = []
       ∨ ∃ file, files !! getFilename context = Some file
                 ∧ ∀ c, c ∈ names → c ∈ availableClassNames file).
Proof.
  split.
  - intros Hi.
    destruct (importedClassNames host context node) as [names|] eqn:En;
      [|apply (ImportDeclaration_None _ _ _ files) in En; congruence].
    exists names. split; [done|].
    destruct (decide (names = [])) as [->|Hne]; [by left|right].
    destruct (ImportDeclaration_lookup host context node files _ En Hne)
      as (files' & Hi' & Hl).
    rewrite Hi in Hi'. injection Hi' as <-.
    specialize (Hl (getFilename context)). case_decide; [|done].
    destruct (files !! getFilename context) as [file|]; [|done].
    exists file. split; [done|]. intros c Hc. injection Hl as Hl.
    assert (availableClassNames file
            = availableClassNames
                (withAvailable file
                   (JSSet.addAll (availableClassNames file) names))) as Ha
      by (by rewrite <- Hl).
    simpl in Ha. rewrite Ha. apply JSSet_elem_of_addAll. by right.
  - intros (names & En & [->|(file & Hf & Hall)]).
    { by apply ImportDeclaration_nothing. }
    destruct (decide (names = [])) as [->|Hne].
    { by apply ImportDeclaration_nothing. }
    destruct (ImportDeclaration_lookup host context node files _ En Hne)
      as (files' & Hi & Hl).
    rewrite Hi. f_equal. apply map_eq. intros key. rewrite Hl.
    case_decide as Hk; [|done]. subst key. rewrite Hf. f_equal.
    rewrite JSSet_addAll_absorb by done. apply withAvailable_same.
Qed.

Lemma pass_available_iff host context events files c :
  traverse host context events ∅ = Some files →
  c ∈ availableAt files (getFilename context) ↔
  ∃ node ast,
    VisitImportDeclaration node ∈ events
    ∧ isCssFile (source_value node) = true
    ∧ fileExists host (stylesheetPath host context node) = true
    ∧ parseCssFileAst host (stylesheetPath host context node) = Some ast
    ∧ c ∈ walkClassSelectors ast.
Proof.
  intros Ht. destruct (traverse_Some _ _ _ _ _ Ht) as (_ & _ & Ha & _).
  rewrite Ha. unfold availableAt at 1. rewrite lookup_empty. simpl. split.
  - intros [Hn|(e & a & u & He & Hc & Hin)]; [by apply elem_of_nil in Hn|].
    destruct (contribution_available _ _ _ _ _ _ Hc Hin)
      as (node & ast & -> & ?). exists node, ast. by split.
  - intros (node & ast & He & H1 & H2 & H3 & Hc). right.
    destruct (contribution_of_import host context node ast H1 H2 H3) as [_ Hcon].
    eexists _, _, _. split_and!; [done|done|].
    by apply elem_of_getCssFileClassNames.
Qed.

Lemma pass_used_iff host context events files c :
  traverse host context events ∅ = Some files →
  c ∈ usedAt files (getFilename context) ↔
  c ≠ "" ∧ VisitMemberExpression {| getPropertyName := Some c |} ∈ events.
Proof.
  intros Ht. destruct (traverse_Some _ _ _ _ _ Ht) as (_ & _ & _ & Hu).
  rewrite Hu. unfold usedAt at 1. rewrite lookup_empty. simpl. split.
  - intros [Hn|(e & a & u & He & Hc & Hin)]; [by apply elem_of_nil in Hn|].
    by destruct (contribution_used _ _ _ _ _ _ Hc Hin) as [Hne ->].
  - intros [Hne He]. right. eexists _, _, _.
    split_and!; [done|by apply contribution_of_access|apply list_elem_of_here].
Qed.

(** X19. What a pass finds unused, in terms of its events: a name is
    among the unused names of the record of the file exactly when it is a
    class selector of the stylesheet of some import of the pass (a
    stylesheet module that exists and parses), no property access of the
    pass has that name, and it is not marked as used. *)
Theorem unused_names_of_a_pass
    (host : Host) (context : RuleContext) (events : list Event)
    (files : gmap string FileEntry) (file : FileEntry)
    (markAsUsedClassNames : list string) (c : string) :
  traverse host context events ∅ = Some files →
  files !! getFilename context = Some file →
  c ∈ unusedClassNames file markAsUsedClassNames ↔
  (∃ node ast,
      VisitImportDeclaration node ∈ events
      ∧ isCssFile (source_value node) = true
      ∧ fileExists host (stylesheetPath host context node) = true
      ∧ parseCssFileAst host (stylesheetPath host context node) = Some ast
      ∧ c ∈ walkClassSelectors ast)
  ∧ ¬ (c ≠ "" ∧ VisitMemberExpression {| getPropertyName := Some c |} ∈ events)
  ∧ (c ∉ markAsUsedClassNames).
Proof.
  intros Ht Hf. rewrite elem_of_unusedClassNames.
  rewrite <- (pass_available_iff host context events files c Ht).
  rewrite <- (pass_used_iff host context events files c Ht).
  unfold availableAt, usedAt. by rewrite Hf.
Qed.

(** ** The further properties at concrete inputs *)

Lemma marked_names_are_not_reported_witness :
  "x" ∈ ["x"]
  ∧ "x" ∉ unusedClassNames Demo.orphan
            (getMarkAsUsedOption [ {| markAsUsed := Some ["x"] |} ]).
Proof.
  split; [apply list_elem_of_here|].
  apply (proj1 (marked_names_are_not_reported Demo.orphan ["x"] [])).
  apply list_elem_of_here.
Defined.

Lemma isCssFile_ignores_case_witness :
  RegExp.canonicalizeString "./A.Module.CSS"
  = RegExp.canonicalizeString "./a.module.css"
  ∧ isCssFile "./A.Module.CSS" = isCssFile "./a.module.css".
Proof.
  split; [reflexivity|].
  apply isCssFile_ignores_case. reflexivity.
Defined.

Lemma isCssFile_depends_on_the_end_witness :
  isCssFile "a.module.scss" = true
  ∧ (∀ front, isCssFile (front +:+ "a.module.scss") = true)
  ∧ (12 ≤ String.length "a.module.scss")%nat.
Proof.
  split; [reflexivity|].
  apply isCssFile_depends_on_the_end. reflexivity.
Defined.

Lemma ImportDeclaration_idempotent_witness :
  ImportDeclaration Demo.host (Demo.context None)
    (Demo.importNodeOf "./five.module.css" 0) ∅ = Some Demo.fiveFiles
  ∧ ImportDeclaration Demo.host (Demo.context None)
      (Demo.importNodeOf "./five.module.css" 0) Demo.fiveFiles
    = Some Demo.fiveFiles.
Proof.
  assert (ImportDeclaration Demo.host (Demo.context None)
            (Demo.importNodeOf "./five.module.css" 0) ∅ = Some Demo.fiveFiles)
    as H by (vm_compute; reflexivity).
  split; [exact H|].
  exact (ImportDeclaration_idempotent _ _ _ _ _ H).
Defined.

Lemma traverse_appends_only_witness :
  traverse Demo.host (Demo.context None)
    [Demo.access "bar"; Demo.import "./b.module.css" 0]
    {[ "/src/App.tsx" := Demo.orphan ]}
  = Some {[ "/src/App.tsx" :=
              {| availableClassNames := ["x"; "y"];
                 usedClassNames := ["foo"; "bar"];
                 meta := None |} ]}
  ∧ ({[ "/src/App.tsx" := Demo.orphan ]} : gmap string FileEntry)
      !! "/src/App.tsx" = Some Demo.orphan
  ∧ ∃ file',
      ({[ "/src/App.tsx" :=
            {| availableClassNames := ["x"; "y"];
               usedClassNames := ["foo"; "bar"];
               meta := None |} ]} : gmap string FileEntry)
        !! "/src/App.tsx" = Some file'
      ∧ availableClassNames Demo.orphan `prefix_of` availableClassNames file'
      ∧ usedClassNames Demo.orphan `prefix_of` usedClassNames file'
      ∧ meta file' = meta Demo.orphan.
Proof.
  assert (traverse Demo.host (Demo.context None)
            [Demo.access "bar"; Demo.import "./b.module.css" 0]
            {[ "/src/App.tsx" := Demo.orphan ]}
          = Some {[ "/src/App.tsx" :=
                      {| availableClassNames := ["x"; "y"];
                         usedClassNames := ["foo"; "bar"];
                         meta := None |} ]}) as Ht
    by (vm_compute; reflexivity).
  assert (({[ "/src/App.tsx" := Demo.orphan ]} : gmap string FileEntry)
            !! "/src/App.tsx" = Some Demo.orphan) as Hf
    by (vm_compute; reflexivity).
  split_and!; [exact Ht|exact Hf|].
  exact (traverse_appends_only _ _ _ _ _ _ _ Ht Hf).
Defined.

Lemma final_sets_are_unions_witness :
  traverse Demo.host (Demo.context None)
    [Demo.import "./five.module.css" 0] ∅ = Some Demo.fiveFiles
  ∧ (∀ c, c ∈ usedAt Demo.fiveFiles (getFilename (Demo.context None)) ↔
          c ≠ ""
          ∧ VisitMemberExpression {| getPropertyName := Some c |}
            ∈ [Demo.import "./five.module.css" 0]).
Proof.
  assert (traverse Demo.host (Demo.context None)
            [Demo.import "./five.module.css" 0] ∅ = Some Demo.fiveFiles) as Ht
    by (vm_compute; reflexivity).
  split; [exact Ht|].
  exact (proj1 (proj2 (proj2 (final_sets_are_unions _ _ _ _ Ht)))).
Defined.

Lemma lint_reports_at_most_once_witness :
  lint Demo.host (Demo.context None) [Demo.import "./five.module.css" 0]
  = Some [Demo.fiveReport]
  ∧ (length [Demo.fiveReport] ≤ 1)%nat.
Proof.
  assert (lint Demo.host (Demo.context None) [Demo.import "./five.module.css" 0]
          = Some [Demo.fiveReport]) as Hl by (vm_compute; reflexivity).
  split; [exact Hl|].
  exact (lint_reports_at_most_once _ _ _ _ Hl).
Defined.

Lemma reports_are_anchored_at_an_import_witness :
  lint Demo.host (Demo.context None) [Demo.import "./five.module.css" 0]
  = Some [Demo.fiveReport]
  ∧ Demo.fiveReport ∈ [Demo.fiveReport]
  ∧ VisitImportDeclaration (report_node Demo.fiveReport)
    ∈ [Demo.import "./five.module.css" 0]
  ∧ report_cssFilePath Demo.fiveReport
    = stylesheetPath Demo.host (Demo.context None) (report_node Demo.fiveReport).
Proof.
  assert (lint Demo.host (Demo.context None) [Demo.import "./five.module.css" 0]
          = Some [Demo.fiveReport]) as Hl by (vm_compute; reflexivity).
  assert (Demo.fiveReport ∈ [Demo.fiveReport]) as Hr by apply list_elem_of_here.
  split_and!; [exact Hl|exact Hr|..];
    apply (reports_are_anchored_at_an_import _ _ _ _ _ Hl Hr).
Defined.

Lemma first_import_with_unused_class_is_reported_witness :
  isCssFile (source_value (Demo.importNodeOf "./five.module.css" 0)) = true
  ∧ "a" ∈ walkClassSelectors
            (Demo.styleSheet [["a"; "b"]; ["c"; "d"; "e"]; ["a"]])
  ∧ (VisitMemberExpression {| getPropertyName := Some "a" |}
     ∉ [Demo.access "b"; Demo.import "./b.module.css" 40])
  ∧ ∃ r,
      lint Demo.host (Demo.context None)
        [Demo.import "./five.module.css" 0; Demo.access "b";
         Demo.import "./b.module.css" 40] = Some [r]
      ∧ report_node r = Demo.importNodeOf "./five.module.css" 0
      ∧ report_cssFilePath r
        = stylesheetPath Demo.host (Demo.context None)
            (Demo.importNodeOf "./five.module.css" 0).
Proof.
  assert ("a" ∈ walkClassSelectors
                  (Demo.styleSheet [["a"; "b"]; ["c"; "d"; "e"]; ["a"]]))
    as Hc by (vm_compute; apply list_elem_of_here).
  assert (VisitMemberExpression {| getPropertyName := Some "a" |}
          ∉ [Demo.access "b"; Demo.import "./b.module.css" 40]) as Hacc.
  { intros H. apply elem_of_cons in H as [H|H]; [discriminate H|].
    apply list_elem_of_singleton in H. discriminate H. }
  split_and!; [reflexivity|exact Hc|exact Hacc|].
  destruct (first_import_with_unused_class_is_reported
              Demo.host (Demo.context None)
              (Demo.importNodeOf "./five.module.css" 0)
              [Demo.access "b"; Demo.import "./b.module.css" 40]
              (Demo.styleSheet [["a"; "b"]; ["c"; "d"; "e"]; ["a"]]) "a")
    as [[Hnone _]|(r & Hl & Hn & Hp & _)].
  - reflexivity.
  - reflexivity.
  - reflexivity.
  - discriminate.
  - exact Hc.
  - exact Hacc.
  - intros H. vm_compute in H. by apply elem_of_nil in H.
  - vm_compute in Hnone. discriminate Hnone.
  - exists r. by split_and!.
Defined.

Lemma unused_names_are_distinct_witness :
  traverse Demo.host (Demo.context None)
    [Demo.import "./five.module.css" 0] ∅ = Some Demo.fiveFiles
  ∧ Demo.fiveFiles !! "/src/App.tsx"
    = Some {| availableClassNames := ["a"; "b"; "c"; "d"; "e"];
              usedClassNames := [];
              meta := Some {| importNode := Demo.importNodeOf "./five.module.css" 0;
                              cssFilePath := "/src/five.module.css" |} |}
  ∧ NoDup (unusedClassNames
             {| availableClassNames := ["a"; "b"; "c"; "d"; "e"];
                usedClassNames := [];
                meta := Some {| importNode := Demo.importNodeOf "./five.module.css" 0;
                                cssFilePath := "/src/five.module.css" |} |}
             ["b"]).
Proof.
  assert (traverse Demo.host (Demo.context None)
            [Demo.import "./five.module.css" 0] ∅ = Some Demo.fiveFiles) as Ht
    by (vm_compute; reflexivity).
  assert (Demo.fiveFiles !! "/src/App.tsx"
          = Some {| availableClassNames := ["a"; "b"; "c"; "d"; "e"];
                    usedClassNames := [];
                    meta := Some {| importNode :=
                                      Demo.importNodeOf "./five.module.css" 0;
                                    cssFilePath := "/src/five.module.css" |} |})
    as Hf by (vm_compute; reflexivity).
  split_and!; [exact Ht|exact Hf|].
  exact (unused_names_are_distinct _ _ _ _ _ _ ["b"] Ht Hf).
Defined.

Lemma unused_names_of_a_pass_witness :
  traverse Demo.host (Demo.context None)
    [Demo.import "./five.module.css" 0] ∅ = Some Demo.fiveFiles
  ∧ Demo.fiveFiles !! getFilename (Demo.context None)
    = Some {| availableClassNames := ["a"; "b"; "c"; "d"; "e"];
              usedClassNames := [];
              meta := Some {| importNode := Demo.importNodeOf "./five.module.css" 0;
                              cssFilePath := "/src/five.module.css" |} |}
  ∧ "a" ∈ unusedClassNames
            {| availableClassNames := ["a"; "b"; "c"; "d"; "e"];
               usedClassNames := [];
               meta := Some {| importNode := Demo.importNodeOf "./five.module.css" 0;
                               cssFilePath := "/src/five.module.css" |} |}
            ["b"].
Proof.
  assert (traverse Demo.host (Demo.context None)
            [Demo.import "./five.module.css" 0] ∅ = Some Demo.fiveFiles) as Ht
    by (vm_compute; reflexivity).
  assert (Demo.fiveFiles !! getFilename (Demo.context None)
          = Some {| availableClassNames := ["a"; "b"; "c"; "d"; "e"];
                    usedClassNames := [];
                    meta := Some {| importNode :=
                                      Demo.importNodeOf "./five.module.css" 0;
                                    cssFilePath := "/src/five.module.css" |} |})
    as Hf by (vm_compute; reflexivity).
  split_and!; [exact Ht|exact Hf|].
  apply (unused_names_of_a_pass _ _ _ _ _ ["b"] "a" Ht Hf). split_and!.
  - exists (Demo.importNodeOf "./five.module.css" 0),
           (Demo.styleSheet [["a"; "b"]; ["c"; "d"; "e"]; ["a"]]).
    split_and!; [apply list_elem_of_here|reflexivity|reflexivity|reflexivity|].
    vm_compute. apply list_elem_of_here.
  - intros [_ H]. apply list_elem_of_singleton in H. discriminate H.
  - intros H. apply list_elem_of_singleton in H. discriminate H.
Defined.
